(** * ELLSOLVEC driver: a shallow embedding of [main.cpp] and [tools.h]

    The development follows the driver of the elliptic solver
    (C/INTEL PARDISO/src/main.cpp) statement by statement:

    - C [int] is a 32-bit two's-complement integer, modelled as [Z] with the
      wrap-around written out ([wrap]);
    - C [double] is an IEEE-754 binary64 number, modelled by the kernel's
      primitive floats;
    - the field arrays are lists of doubles updated by index; a store outside
      the allocated block is a memory fault;
    - the driver runs in a small monad that threads the standard input and the
      trace of observable events, and that can stop early with [exit] or with a
      memory fault;
    - what the driver calls but does not define (libm's [exp], the PARDISO
      wrappers, [flat_laplacian]) is a variable of the section. The driver is
      translated once, for any behaviour of a call of [flat_laplacian]
      ([main_with]); [main] is the driver with a solver whose calls return. *)

From Stdlib Require Import ZArith Lia Floats Ascii String.
From stdpp Require Import base tactics option list numbers.

Local Open Scope Z_scope.
Set Warnings "-inexact-float".

(** ** Machine integers *)

Module Int.

Definition INT_MIN : Z := -2147483648.
Definition INT_MAX : Z := 2147483647.

(** Reduction of a mathematical integer into the range of [int]. *)
Definition wrap (x : Z) : Z := (x + 2147483648) mod 4294967296 - 2147483648.

Definition in_range (x : Z) : Prop := INT_MIN <= x <= INT_MAX.

Definition add (x y : Z) : Z := wrap (x + y).
Definition sub (x y : Z) : Z := wrap (x - y).
Definition mul (x y : Z) : Z := wrap (x * y).

End Int.

(** ** Doubles *)

Module Dbl.

(** [(double) n] for an [int] [n]: exact, every 32-bit integer is a
    binary64 number. *)
Definition of_int (n : Z) : float :=
  if n <? 0 then PrimFloat.opp (PrimFloat.of_uint63 (Uint63.of_Z (- n)))
  else PrimFloat.of_uint63 (Uint63.of_Z n).

Definition half : float := 0.5%float.
Definition one : float := 1%float.
Definition zero : float := 0%float.
Definition three : float := 3%float.

End Dbl.

(** ** tools.h *)

(** [#define IDX(i, j) ((i) * NzTotal + (j))], on [int] operands. *)
Definition IDX (NzTotal i j : Z) : Z := Int.add (Int.mul i NzTotal) j.

(** [#define BASE 1] *)
Definition BASE : Z := 1.

(** ** main.cpp: solver ranges *)

Definition NRINTERIOR_MIN : Z := 32.
Definition NRINTERIOR_MAX : Z := 2048.
Definition NZINTERIOR_MIN : Z := 32.
Definition NZINTERIOR_MAX : Z := 2048.
Definition DR_MAX : float := 1.0%float.
Definition DR_MIN : float := 0.000976562%float.
Definition DZ_MAX : float := 1.0%float.
Definition DZ_MIN : float := 0.000976562%float.

(** ** main.cpp: parameters and grid dimensions *)

(** The parameters of a run, lines 24-29. *)
Record params := MkParams {
  dirname : string;
  norder : Z;
  NrInterior : Z;
  NzInterior : Z;
  dr : float;
  dz : float
}.

(** Default values, lines 24-29. *)
Definition default_params : params :=
  {| dirname := "output"; norder := 2; NrInterior := 256; NzInterior := 64;
     dr := 0.03125%float; dz := 0.125%float |}.

(** Lines 153-161: [ghost] is initialised to 0 at line 33 and assigned in the
    two branches only. *)
Definition ghost_of (norder : Z) : Z :=
  if norder =? 2 then 2 else if norder =? 4 then 3 else 0.

(** Grid variables, lines 31-34 and 162-165. *)
Record grid := Grid {
  ghost : Z;
  NrTotal : Z;
  NzTotal : Z;
  DIM : Z
}.

Definition grid_of (p : params) : grid :=
  let ghost := ghost_of (norder p) in
  let NrTotal := Int.add (Int.add ghost (NrInterior p)) 1 in
  let NzTotal := Int.add (Int.add ghost (NzInterior p)) 1 in
  {| ghost := ghost; NrTotal := NrTotal; NzTotal := NzTotal;
     DIM := Int.mul NrTotal NzTotal |}.

(** ** Field arrays *)

(** An array of doubles is a list; [k] is a C index. A store outside the
    block is a memory fault ([None]). *)
Definition load (a : list float) (k : Z) : option float :=
  if decide (0 ≤ k) then a !! Z.to_nat k else None.

Definition store (a : list float) (k : Z) (v : float) : option (list float) :=
  if decide (0 ≤ k < Z.of_nat (length a)) then Some (<[Z.to_nat k := v]> a) else None.

(** The six grid functions of line 177. *)
Record fields := Fields {
  fld_r : list float;
  fld_z : list float;
  fld_u : list float;
  fld_f : list float;
  fld_s : list float;
  fld_res : list float
}.

(** A counted loop [for (i = lo; i < lo + n; i++) body], with a body that can
    fault. *)
Fixpoint for_loop {S : Type} (n : nat) (i : Z) (body : Z → S → option S) (s : S)
  : option S :=
  match n with
  | O => Some s
  | Datatypes.S n' =>
      match body i s with
      | Some s' => for_loop n' (i + 1) body s'
      | None => None
      end
  end.

Section Driver.

(** libm's [exp]. *)
Variable exp : float → float.

(** Line 201 and line 204: [((double)(i - ghost) + 0.5) * step]. *)
Definition coordinate (ghost i : Z) (step : float) : float :=
  ((Dbl.of_int (Int.sub i ghost) + 0.5) * step)%float.

(** Line 212, with the precedence of C:
    [exp(-aux_r * aux_r - aux_z * aux_z) *
     (0.5 + aux_r * aux_r * (-3.0 + aux_r * aux_r + aux_z * aux_z))]. *)
Definition linear_source (aux_r aux_z : float) : float :=
  (exp ((- aux_r) * aux_r - aux_z * aux_z)
   * (0.5 + (aux_r * aux_r) * (((- 3.0) + aux_r * aux_r) + aux_z * aux_z)))%float.

(** Lines 204-212: the body of the inner loop. *)
Definition fill_point (g : grid) (p : params) (i : Z) (aux_r : float) (j : Z)
    (fl : fields) : option fields :=
  let aux_z := coordinate (ghost g) j (dz p) in
  let k := IDX (NzTotal g) i j in
  r' ← store (fld_r fl) k aux_r;
  z' ← store (fld_z fl) k aux_z;
  u' ← store (fld_u fl) k 1.0%float;
  f' ← store (fld_f fl) k 0.0%float;
  res' ← store (fld_res fl) k 0.0%float;
  s' ← store (fld_s fl) k (linear_source aux_r aux_z);
  Some {| fld_r := r'; fld_z := z'; fld_u := u'; fld_f := f';
          fld_s := s'; fld_res := res' |}.

(** Lines 199-214: the body of the outer loop. *)
Definition fill_row (g : grid) (p : params) (i : Z) (fl : fields) : option fields :=
  let aux_r := coordinate (ghost g) i (dr p) in
  for_loop (Z.to_nat (NzTotal g)) 0 (fill_point g p i aux_r) fl.

(** Lines 196-215. The iterations of the parallel loop are taken in index
    order. *)
Definition fill_grids (g : grid) (p : params) (fl : fields) : option fields :=
  for_loop (Z.to_nat (NrTotal g)) 0 (fill_row g p) fl.

End Driver.

(** ** The driver's effects *)

(** An argument of [printf]. [ATime k] stands for the measured [time[k]],
    whose value is not modelled. *)
Inductive arg :=
| AInt (n : Z)
| ADbl (x : float)
| AStr (s : string)
| ATime (slot : nat).

(** The arguments of one call of [flat_laplacian], in the order of the call:
    the contents of [u], [f], [res] and [s] on entry, the constants
    [1.0, 1, 1, 1], the grid parameters, and the two flags that distinguish
    the five calls (permutation use, and the CGS refinement parameter). *)
Record solve_call := SolveCall {
  sc_u : list float;
  sc_f : list float;
  sc_res : list float;
  sc_s : list float;
  sc_uInf : float;
  sc_flags : Z * Z * Z;
  sc_NrInterior : Z;
  sc_NzInterior : Z;
  sc_ghost : Z;
  sc_dr : float;
  sc_dz : float;
  sc_norder : Z;
  sc_perm : Z;
  sc_cgs : Z
}.

(** What a call of [flat_laplacian] that returns leaves behind: the new
    contents of the four arrays it was handed, and whether the solve failed.
    The function returns nothing to its caller: the driver cannot see the
    flag. *)
Record solve_result := SolveResult {
  sr_u : list float;
  sr_f : list float;
  sr_res : list float;
  sr_s : list float;
  sr_failed : bool
}.

Inductive event :=
| EvPrintf (fmt : string) (args : list arg)
| EvMkdir (dir : string)
| EvMalloc (size : Z)
| EvWriteFile (data : list float) (fname : string) (NrTotal NzTotal : Z)
| EvPardisoStart (NrInterior NzInterior : Z)
| EvSolve (c : solve_call)
| EvPardisoStop
| EvFree (block : list float).

(** How a computation ends: it returns, it calls [exit], it faults, or it
    never ends. *)
Inductive result (A : Type) :=
| Ret (a : A)
| Exit (code : Z)
| Fault
| Hang.
Arguments Ret {A} a.
Arguments Exit {A} code.
Arguments Fault {A}.
Arguments Hang {A}.

(** A computation reads the standard input and appends to the trace. *)
Record M (A : Type) := MkM { run : list ascii → result A * list ascii * list event }.
Arguments MkM {A} run.
Arguments run {A} m stdin.

Definition M_ret {A} (a : A) : M A := MkM (λ i, (Ret a, i, [])).

Definition M_bind {A B} (k : A → M B) (m : M A) : M B :=
  MkM (λ i,
    match run m i with
    | (Ret a, i', t) => let '(r, i'', t') := run (k a) i' in (r, i'', t ++ t')
    | (Exit c, i', t) => (Exit c, i', t)
    | (Fault, i', t) => (Fault, i', t)
    | (Hang, i', t) => (Hang, i', t)
    end).

Global Instance M_mret : MRet M := @M_ret.
Global Instance M_mbind : MBind M := @M_bind.

Definition emit (e : event) : M unit := MkM (λ i, (Ret tt, i, [e])).
Definition printf (fmt : string) (args : list arg) : M unit := emit (EvPrintf fmt args).
Definition exit {A} (code : Z) : M A := MkM (λ i, (Exit code, i, [])).
Definition fault {A} : M A := MkM (λ i, (Fault, i, [])).
Definition hang {A} : M A := MkM (λ i, (Hang, i, [])).

(** [strcpy] into a buffer of [size] bytes: the characters of [src] and the
    terminating zero are written from the start of the buffer, with no test
    of the length. A string that does not fit is written past the end of the
    buffer: the behaviour is undefined from there on, and the run is cut at
    the copy with a fault. *)
Definition strcpy (size : nat) (src : string) : M string :=
  if decide (String.length src < size)%nat then mret src else fault.

(** [getchar()]: [None] is [EOF]. *)
Definition getchar : M (option ascii) :=
  MkM (λ i, match i with
            | [] => (Ret None, [], [])
            | c :: i' => (Ret (Some c), i', [])
            end).

Definition lift {A} (o : option A) : M A :=
  match o with Some a => mret a | None => fault end.

(** [(opt == 'y') || (opt == 'Y')] *)
Definition is_yes (opt : option ascii) : bool :=
  match opt with
  | Some c => (Ascii.eqb c "y") || (Ascii.eqb c "Y")
  | None => false
  end.

(** [opt = getchar(); getchar();] *)
Definition read_opt : M (option ascii) :=
  opt ← getchar; _ ← getchar; mret opt.

(** What the driver gets from outside: the command line, with [atoi] and
    [atof] already applied to [argv[2..6]], the answers of [stat] and [chdir],
    and the contents that [malloc] hands out for the six blocks. *)
Record env := Env {
  argc : Z;
  argv_dirname : string;
  argv_norder : Z;
  argv_NrInterior : Z;
  argv_NzInterior : Z;
  argv_dr : float;
  argv_dz : float;
  stat_fails : bool;
  chdir_fails : bool;
  heap : nat → Z → float
}.

(** [size_t] is 64 bits wide; [sizeof(double)] is 8. *)
Definition size_of_int (n : Z) : Z := n mod 18446744073709551616.
Definition DIM_size_of (DIM : Z) : Z := (size_of_int DIM * 8) mod 18446744073709551616.
Definition PTRDIFF_MAX : Z := 9223372036854775807.

(** [malloc]: a request above [PTRDIFF_MAX] returns [NULL], a block on which
    every access faults, here the empty list; any other request is served
    with a block of unspecified contents. *)
Definition malloc (e : env) (slot : nat) (size : Z) : M (list float) :=
  _ ← emit (EvMalloc size);
  mret (if decide (size ≤ PTRDIFF_MAX) then heap e slot <$> seqZ 0 (size / 8) else []).

Section Main.

(** libm's [exp]. *)
Variable exp : float → float.

(** The PARDISO session behind [pardiso_start], [flat_laplacian] and
    [pardiso_stop]. *)
Variable backend : Type.
Variable pardiso_start : Z → Z → backend.

(** What a call of [flat_laplacian] does, on the session and the arguments
    it is given. *)
Variable flat_laplacian_call : backend → solve_call → M (backend * solve_result).

(** Lines 44-106. [dirname] is [char dirname[256]] (line 29); line 69 copies
    [argv[1]] into it. *)
Definition get_arguments (e : env) : M params :=
  if negb (argc e =? 7) then
    _ ← printf "ELLSOLVEC: WARNING! Usage is  $./ELLSOLVEC dirname norder NrInterior NzInterior dr dz\n" [];
    _ ← printf "           [dirname] is a valid directory string name.\n" [];
    _ ← printf "           [norder] is an integer equal to 2 or 4 corresponding to the finite difference order.\n" [];
    _ ← printf "           [NrInterior] and [NzInterior] are integers equal to the number of interior points in r, z.\n" [];
    _ ← printf "           [dr] and [dz] are floating point doubles equal to the spatial step in r, z.\n" [];
    _ ← printf "Press (y/n) to procede with default arguments:\n" [];
    opt ← read_opt;
    if is_yes opt then
      _ ← printf "ELLSOLVEC: User chose to proceed with default arguments.\n" [];
      mret default_params
    else
      _ ← printf "ELLSOLVEC: User chose to abort.\n" [];
      exit 1
  else
    dirname ← strcpy 256 (argv_dirname e);
    let norder := argv_norder e in
    if negb (norder =? 2) && negb (norder =? 4) then
      _ ← printf "ELLSOLVEC: ERROR! Finite difference %d is not supported, only 2 or 4.\n"
            [AInt norder];
      exit 1
    else
    let NrInterior := argv_NrInterior e in
    let NzInterior := argv_NzInterior e in
    if (NrInterior <? NRINTERIOR_MIN) || (NzInterior >? NRINTERIOR_MAX) then
      _ ← printf "ELLSOLVEC: ERROR! NrInterior = %d is out of range [%d, %d].\n"
            [AInt NrInterior; AInt NRINTERIOR_MIN; AInt NRINTERIOR_MAX];
      exit 1
    else
    if (NzInterior <? NZINTERIOR_MIN) || (NzInterior >? NZINTERIOR_MAX) then
      _ ← printf "ELLSOLVEC: ERROR! NzInterior = %d is out of range [%d, %d].\n"
            [AInt NzInterior; AInt NZINTERIOR_MIN; AInt NZINTERIOR_MAX];
      exit 1
    else
    let dr := argv_dr e in
    let dz := argv_dz e in
    if (dr <? DR_MIN)%float || (DR_MAX <? dr)%float then
      _ ← printf "ELLSOLVEC: ERROR! dr = %3.3E out of range [%3.3E, %3.3E].\n"
            [ADbl dr; ADbl DR_MIN; ADbl DR_MAX];
      exit 1
    else
    if (dz <? DZ_MIN)%float || (DZ_MAX <? dz)%float then
      _ ← printf "ELLSOLVEC: ERROR! dz = %3.3E out of range [%3.3E, %3.3E].\n"
            [ADbl dz; ADbl DZ_MIN; ADbl DZ_MAX];
      exit 1
    else
      mret {| dirname := dirname; norder := norder; NrInterior := NrInterior;
              NzInterior := NzInterior; dr := dr; dz := dz |}.

(** Lines 108-151. *)
Definition output_directory (e : env) (p : params) : M unit :=
  _ ← (if stat_fails e then emit (EvMkdir (dirname p))
       else
         _ ← printf "ELLSOLVEC: WARNING! Directory %s already exists.\n" [AStr (dirname p)];
         _ ← printf "Press (y/n) to procede and possibly overwrite files:\n" [];
         opt ← read_opt;
         if is_yes opt then printf "ELLSOLVEC: User chose to proceed.\n" []
         else
           _ ← printf "ELLSOLVEC: User chose to abort.\n" [];
           exit 1);
  if chdir_fails e then
    _ ← printf "ELLSOLVEC: WARNING! Could not CD to %s directory.\n" [AStr (dirname p)];
    _ ← printf "Press (y/n) to procede and write in current directory:\n" [];
    opt ← read_opt;
    if is_yes opt then printf "ELLSOLVEC: User chose to proceed.\n" []
    else
      _ ← printf "ELLSOLVEC: User chose to abort.\n" [];
      exit 1
  else mret tt.

(** Lines 168-174. *)
Definition print_parameters (p : params) (g : grid) : M unit :=
  _ ← printf "ELLSOLVEC: System parameters are:\n" [];
  _ ← printf "\t\tNrInt\t= %d\n" [AInt (NrInterior p)];
  _ ← printf "\t\tNzInt\t= %d\n" [AInt (NzInterior p)];
  _ ← printf "\t\tghost\t= %d\n" [AInt (ghost g)];
  _ ← printf "\t\tdr\t= %4.8E\n" [ADbl (dr p)];
  _ ← printf "\t\tdz\t= %4.8E\n" [ADbl (dz p)];
  printf "\t\torder\t= %d\n" [AInt (norder p)].

(** Lines 179-189, in the order of the six calls of [malloc]. *)
Definition allocate (e : env) (g : grid) : M fields :=
  let DIM_size := DIM_size_of (DIM g) in
  _ ← printf "ELLSOLVEC: Allocating memory...\n" [];
  r ← malloc e 0 DIM_size;
  z ← malloc e 1 DIM_size;
  u ← malloc e 2 DIM_size;
  f ← malloc e 3 DIM_size;
  s ← malloc e 4 DIM_size;
  res ← malloc e 5 DIM_size;
  _ ← printf "ELLSOLVEC: Allocated memory.\n" [];
  mret {| fld_r := r; fld_z := z; fld_u := u; fld_f := f; fld_s := s; fld_res := res |}.

(** One call
    [flat_laplacian(u, f, res, s, 1.0, 1, 1, 1, NrInterior, NzInterior,
                    ghost, dr, dz, norder, perm, cgs)].
    The four arrays are passed by pointer: a call that returns may have
    written any of them. The call has no result for the driver to inspect. *)
Definition solve_with (p : params) (g : grid) (perm cgs : Z) (st : backend * fields)
    : M (backend * fields) :=
  let fl := st.2 in
  let c := {| sc_u := fld_u fl; sc_f := fld_f fl; sc_res := fld_res fl; sc_s := fld_s fl;
              sc_uInf := 1.0%float; sc_flags := (1, 1, 1);
              sc_NrInterior := NrInterior p; sc_NzInterior := NzInterior p;
              sc_ghost := ghost g; sc_dr := dr p; sc_dz := dz p;
              sc_norder := norder p; sc_perm := perm; sc_cgs := cgs |} in
  _ ← emit (EvSolve c);
  out ← flat_laplacian_call st.1 c;
  mret (out.1, {| fld_r := fld_r fl; fld_z := fld_z fl; fld_u := sr_u out.2;
                  fld_f := sr_f out.2; fld_s := sr_s out.2; fld_res := sr_res out.2 |}).

(** Lines 228-267. *)
Definition benchmark_with (p : params) (g : grid) (st : backend * fields)
    : M (backend * fields) :=
  _ ← printf "ELLSOLVEC: Calling normal solver.\n" [];
  st ← solve_with p g 0 0 st;
  _ ← printf "ELLSOLVEC: Solving whilst calculating permutation.\n" [];
  st ← solve_with p g 2 0 st;
  _ ← printf "ELLSOLVEC: Solving with permutation.\n" [];
  st ← solve_with p g 1 0 st;
  _ ← printf "ELLSOLVEC: Solving with CGS.\n" [];
  st ← solve_with p g 0 6 st;
  _ ← printf "ELLSOLVEC: Solving with CGS and permutation.\n" [];
  solve_with p g 1 6 st.

(** Lines 269-293. *)
Definition report_and_clean (g : grid) (fl : fields) : M Z :=
  _ ← printf "ELLSOLVEC: Normal solver took %3.3E seconds.\n" [ATime 0];
  _ ← printf "ELLSOLVEC: Permutation calculation took %3.3E seconds.\n" [ATime 1];
  _ ← printf "ELLSOLVEC: Solver with permutation took %3.3E seconds.\n" [ATime 2];
  _ ← printf "ELLSOLVEC: Solver with CGS took %3.3E seconds.\n" [ATime 3];
  _ ← printf "ELLSOLVEC: Solver with CGS and permutation took %3.3E seconds.\n" [ATime 4];
  _ ← emit (EvWriteFile (fld_u fl) "u.asc" (NrTotal g) (NzTotal g));
  _ ← emit (EvWriteFile (fld_res fl) "res.asc" (NrTotal g) (NzTotal g));
  _ ← emit EvPardisoStop;
  _ ← printf "ELLSOLVEC: Cleaning up...\n" [];
  _ ← emit (EvFree (fld_r fl));
  _ ← emit (EvFree (fld_z fl));
  _ ← emit (EvFree (fld_u fl));
  _ ← emit (EvFree (fld_f fl));
  _ ← emit (EvFree (fld_s fl));
  _ ← emit (EvFree (fld_res fl));
  _ ← printf "ELLSOLVEC: Cleared all memory.\n" [];
  mret 0.

(** Lines 153-267, once the parameters are known. *)
Definition compute_with (e : env) (p : params) : M Z :=
  let g := grid_of p in
  _ ← print_parameters p g;
  fl ← allocate e g;
  fl ← lift (fill_grids exp g p fl);
  _ ← emit (EvWriteFile (fld_r fl) "r.asc" (NrTotal g) (NzTotal g));
  _ ← emit (EvWriteFile (fld_z fl) "z.asc" (NrTotal g) (NzTotal g));
  _ ← printf "ELLSOLVEC: Filled and printed r, z grids.\n" [];
  _ ← emit (EvPardisoStart (NrInterior p) (NzInterior p));
  let b := pardiso_start (NrInterior p) (NzInterior p) in
  _ ← emit (EvWriteFile (fld_s fl) "s.asc" (NrTotal g) (NzTotal g));
  _ ← emit (EvWriteFile (fld_f fl) "f.asc" (NrTotal g) (NzTotal g));
  st ← benchmark_with p g (b, fl);
  report_and_clean g st.2.

Definition main_with (e : env) : M Z :=
  p ← get_arguments e;
  _ ← output_directory e p;
  compute_with e p.

End Main.

(** *** The ways a call of [flat_laplacian] can end

    [flat_laplacian] is declared in no file of the driver's directory and the
    driver sees nothing of a call but that it is over. A solver is given
    here by the way each of its calls ends. *)

(** Modelled from the spec: the body of [flat_laplacian] is missing; the
    ends of a backend call are those of sections 5 and 7: the call returns
    (with or without a reported solve-level failure), it ends the process
    (fatal: [exit] with a status, or an abort), or it blocks for ever. *)
Inductive solver_end (backend : Type) :=
| Returns (b : backend) (r : solve_result)
| Exits (code : Z)
| Aborts
| Blocks.
Arguments Returns {backend} b r.
Arguments Exits {backend} code.
Arguments Aborts {backend}.
Arguments Blocks {backend}.

Definition ending {backend} (sv : backend → solve_call → solver_end backend)
    (b : backend) (c : solve_call) : M (backend * solve_result) :=
  match sv b c with
  | Returns b' r => mret (b', r)
  | Exits code => exit code
  | Aborts => fault
  | Blocks => hang
  end.



(** *** The driver with a solver whose calls return

    Every call of [flat_laplacian] returns, with or without a reported
    failure. *)
Section Returning.

Variable exp : float → float.
Variable backend : Type.
Variable pardiso_start : Z → Z → backend.
Variable flat_laplacian : backend → solve_call → backend * solve_result.

Definition returning (b : backend) (c : solve_call) : M (backend * solve_result) :=
  mret (flat_laplacian b c).

Definition solve (p : params) (g : grid) (perm cgs : Z) (st : backend * fields)
    : M (backend * fields) :=
  solve_with backend returning p g perm cgs st.

Definition benchmark (p : params) (g : grid) (st : backend * fields)
    : M (backend * fields) :=
  benchmark_with backend returning p g st.

Definition compute (e : env) (p : params) : M Z :=
  compute_with exp backend pardiso_start returning e p.

Definition main (e : env) : M Z :=
  main_with exp backend pardiso_start returning e.

End Returning.

(** ** Observations on a run *)

Definition outcome {A} (x : result A * list ascii * list event) : result A := x.1.1.
Definition trace {A} (x : result A * list ascii * list event) : list event := x.2.

(** The calls of [flat_laplacian] in a trace, in order. *)
Definition solves (t : list event) : list solve_call :=
  omap (λ ev, match ev with EvSolve c => Some c | _ => None end) t.

(** The sizes requested from [malloc] in a trace, in order. *)
Definition mallocs (t : list event) : list Z :=
  omap (λ ev, match ev with EvMalloc n => Some n | _ => None end) t.

(** The two flags of a call. *)
Definition mode (c : solve_call) : Z * Z := (sc_perm c, sc_cgs c).

(** A configuration whose grid has a number of points that fits in [int]. *)
Definition representable (p : params) : Prop :=
  0 ≤ NrInterior p ∧ 0 ≤ NzInterior p ∧
  (ghost_of (norder p) + NrInterior p + 1) * (ghost_of (norder p) + NzInterior p + 1)
    ≤ Int.INT_MAX.

(** The ranges that the error messages of lines 75-103 announce. *)
Definition documented (p : params) : Prop :=
  (norder p = 2 ∨ norder p = 4) ∧
  NRINTERIOR_MIN ≤ NrInterior p ≤ NRINTERIOR_MAX ∧
  NZINTERIOR_MIN ≤ NzInterior p ≤ NZINTERIOR_MAX ∧
  (dr p <? DR_MIN)%float = false ∧ (DR_MAX <? dr p)%float = false ∧
  (dz p <? DZ_MIN)%float = false ∧ (DZ_MAX <? dz p)%float = false.

(** The parameters that the command line of [e] asks for. *)
Definition params_of_argv (e : env) : params :=
  {| dirname := argv_dirname e; norder := argv_norder e;
     NrInterior := argv_NrInterior e; NzInterior := argv_NzInterior e;
     dr := argv_dr e; dz := argv_dz e |}.

(** The contents of the six arrays after the fill loop, in closed form: the
    point of linear index [k] has axis indices [k / NzTotal] and
    [k mod NzTotal]. *)
Section Filled.

Variable exp : float → float.

Definition cell_r (g : grid) (p : params) (k : Z) : float :=
  coordinate (ghost g) (k / NzTotal g) (dr p).
Definition cell_z (g : grid) (p : params) (k : Z) : float :=
  coordinate (ghost g) (k mod NzTotal g) (dz p).
Definition cell_s (g : grid) (p : params) (k : Z) : float :=
  linear_source exp (cell_r g p k) (cell_z g p k).

Definition filled (g : grid) (p : params) : fields :=
  let ks := seqZ 0 (DIM g) in
  {| fld_r := cell_r g p <$> ks;
     fld_z := cell_z g p <$> ks;
     fld_u := (λ _, 1.0%float) <$> ks;
     fld_f := (λ _, 0.0%float) <$> ks;
     fld_s := cell_s g p <$> ks;
     fld_res := (λ _, 0.0%float) <$> ks |}.

End Filled.

(** Six arrays of [n] cells each. *)
Definition fields_length (n : nat) (fl : fields) : Prop :=
  length (fld_r fl) = n ∧ length (fld_z fl) = n ∧ length (fld_u fl) = n ∧
  length (fld_f fl) = n ∧ length (fld_s fl) = n ∧ length (fld_res fl) = n.

(** Two sets of arrays that agree on the cells below [K]. *)
Definition agree_below (K : Z) (fl fl' : fields) : Prop :=
  take (Z.to_nat K) (fld_r fl) = take (Z.to_nat K) (fld_r fl') ∧
  take (Z.to_nat K) (fld_z fl) = take (Z.to_nat K) (fld_z fl') ∧
  take (Z.to_nat K) (fld_u fl) = take (Z.to_nat K) (fld_u fl') ∧
  take (Z.to_nat K) (fld_f fl) = take (Z.to_nat K) (fld_f fl') ∧
  take (Z.to_nat K) (fld_s fl) = take (Z.to_nat K) (fld_s fl') ∧
  take (Z.to_nat K) (fld_res fl) = take (Z.to_nat K) (fld_res fl').

(** [argv[1]] and its terminating zero fit in [char dirname[256]]. *)
Definition name_fits (e : env) : Prop := (String.length (argv_dirname e) < 256)%nat.

(** The disjunction of the five tests of lines 73-101, on the parsed command
    line. *)
Definition fails_checks (e : env) : bool :=
  (negb (argv_norder e =? 2) && negb (argv_norder e =? 4))
  || ((argv_NrInterior e <? NRINTERIOR_MIN) || (argv_NzInterior e >? NRINTERIOR_MAX))
  || ((argv_NzInterior e <? NZINTERIOR_MIN) || (argv_NzInterior e >? NZINTERIOR_MAX))
  || ((argv_dr e <? DR_MIN)%float || (DR_MAX <? argv_dr e)%float)
  || ((argv_dz e <? DZ_MIN)%float || (DZ_MAX <? argv_dz e)%float).

(** The flags of the five benchmark calls, in the order of lines 231-265. *)
Definition benchmark_modes : list (Z * Z) := [(0, 0); (2, 0); (1, 0); (0, 6); (1, 6)].

(** The arguments of the first call of [flat_laplacian] after a fill loop that
    has left the closed form. *)
Definition first_call (exp : float → float) (p : params) : solve_call :=
  let fl := filled exp (grid_of p) p in
  {| sc_u := fld_u fl; sc_f := fld_f fl; sc_res := fld_res fl; sc_s := fld_s fl;
     sc_uInf := 1.0%float; sc_flags := (1, 1, 1);
     sc_NrInterior := NrInterior p; sc_NzInterior := NzInterior p;
     sc_ghost := ghost (grid_of p); sc_dr := dr p; sc_dz := dz p;
     sc_norder := norder p; sc_perm := 0; sc_cgs := 0 |}.

(** What one iteration of the fill loop leaves untouched. *)
Definition same_except (k : Z) (fl fl' : fields) : Prop :=
  ∀ k', k' ≠ k →
    load (fld_r fl') k' = load (fld_r fl) k' ∧
    load (fld_z fl') k' = load (fld_z fl) k' ∧
    load (fld_u fl') k' = load (fld_u fl) k' ∧
    load (fld_f fl') k' = load (fld_f fl) k' ∧
    load (fld_s fl') k' = load (fld_s fl) k' ∧
    load (fld_res fl') k' = load (fld_res fl) k'.

(** ** A concrete run

    [./ELLSOLVEC out 2 32 32 0.5 0.25] in a fresh directory, with zeroed
    blocks, the identity in place of [exp] and a solver that leaves the
    arrays as they are and reports a failure. *)

Definition sample_params : params :=
  {| dirname := "out"; norder := 2; NrInterior := 32; NzInterior := 32;
     dr := 0.5%float; dz := 0.25%float |}.

Definition sample_env : env :=
  {| argc := 7; argv_dirname := "out"; argv_norder := 2; argv_NrInterior := 32;
     argv_NzInterior := 32; argv_dr := 0.5%float; argv_dz := 0.25%float;
     stat_fails := true; chdir_fails := false; heap := λ _ _, 0%float |}.

Definition sample_blocks : fields :=
  let a := replicate 1225 0%float in
  {| fld_r := a; fld_z := a; fld_u := a; fld_f := a; fld_s := a; fld_res := a |}.

Definition sample_exp (x : float) : float := x.

Definition sample_solver (b : unit) (c : solve_call) : unit * solve_result :=
  (b, {| sr_u := sc_u c; sr_f := sc_f c; sr_res := sc_res c; sr_s := sc_s c;
         sr_failed := true |}).



(** The same command line with the order 3, which line 73 rejects. *)
Definition sample_bad_env : env :=
  {| argc := 7; argv_dirname := "out"; argv_norder := 3; argv_NrInterior := 32;
     argv_NzInterior := 32; argv_dr := 0.5%float; argv_dz := 0.25%float;
     stat_fails := true; chdir_fails := false; heap := λ _ _, 0%float |}.

(** ** The parity substitution at the symmetry axis *)

Module Axis.

(** Modelled from the spec: the assumed parity of a field across the axis
    (section 4.2: "added to or subtracted from, depending on the field's
    assumed parity"). The stencil generator is behind [flat_laplacian],
    which the driver only calls. *)
Inductive parity := Even | Odd.

(** Modelled from the spec: the number of neighbours on each side of a point
    ("second order uses a 3-point stencil per axis; fourth order uses a
    5-point stencil per axis"). *)
Definition half_width (norder : Z) : Z := norder / 2.

(** Modelled from the spec: the grid index of the interior point that lies
    at the same distance from the axis as the point of index [m]; section
    4.1 puts index [m] at [(m - ghost + 0.5) * step]. *)
Definition reflect (ghost m : Z) : Z := 2 * ghost - 1 - m.

Section Coefficients.

(** The stencil weights per order and offset; the specification leaves
    their values open. *)
Variable coef : Z → Z → float.

(** Modelled from the spec: the stencil template of the radial axis at
    index [i], as (column, coefficient) pairs in increasing column
    order. *)
Definition template (norder i : Z) : list (Z * float) :=
  (λ o, (i + o, coef norder o)) <$> seqZ (- half_width norder) (2 * half_width norder + 1).

(** Modelled from the spec: folding a coefficient into the entry of column
    [col] ("added into that interior point's own coefficient"). *)
Fixpoint fold_in (par : parity) (col : Z) (c : float) (row : list (Z * float))
  : list (Z * float) :=
  match row with
  | [] => [(col, match par with Even => c | Odd => (- c)%float end)]
  | (col', c') :: row' =>
      if col' =? col
      then (col', match par with Even => (c' + c)%float | Odd => (c' - c)%float end) :: row'
      else (col', c') :: fold_in par col c row'
  end.

(** Modelled from the spec: the row of the radial stencil at index [i]
    after the parity substitution of section 4.2: the entries on the near
    side of the axis are kept, each entry across the axis is folded into
    the entry of the reflected column. *)
Definition radial_row (par : parity) (norder i : Z) : list (Z * float) :=
  let gh := ghost_of norder in
  let t := template norder i in
  foldl (λ row e, fold_in par (reflect gh e.1) e.2 row)
        (filter (λ e, gh ≤ e.1) t)
        (filter (λ e, e.1 < gh) t).

End Coefficients.

(** The coefficient of column [col] in a row. *)
Fixpoint coefficient (row : list (Z * float)) (col : Z) : option float :=
  match row with
  | [] => None
  | (col', c) :: row' => if col' =? col then Some c else coefficient row' col
  end.

End Axis.

(** ** tools.h: the MIN, MAX and ABS macros *)

Module Macros.

(** [#define MIN(X, Y) ((X) < (Y)) ? (X) : (Y)],
    [#define MAX(X, Y) ((X) > (Y)) ? (X) : (Y)] and
    [#define ABS(X) ((X) < 0) ? -(X) : (X)], used as complete expressions
    (the expansions have no outer parentheses) on [int] operands. *)
Definition MIN (X Y : Z) : Z := if X <? Y then X else Y.
Definition MAX (X Y : Z) : Z := if X >? Y then X else Y.
Definition ABS (X : Z) : Z := if X <? 0 then Int.wrap (- X) else X.

(** The same three macros on [double] operands. *)
Definition MIN_double (X Y : float) : float := if (X <? Y)%float then X else Y.
Definition MAX_double (X Y : float) : float := if (Y <? X)%float then X else Y.
Definition ABS_double (X : float) : float := if (X <? 0)%float then (- X)%float else X.

End Macros.

(** ** More observations on a run *)

(** The directories created, in order. *)
Definition mkdirs (t : list event) : list string :=
  omap (λ ev, match ev with EvMkdir d => Some d | _ => None end) t.

(** The files written, in order, with their data. *)
Definition writes (t : list event) : list (string * list float) :=
  omap (λ ev, match ev with EvWriteFile d n _ _ => Some (n, d) | _ => None end) t.

(** A trace without its messages and directory creation: the use of memory,
    of the PARDISO session and of the output files. *)
Inductive step :=
| SMalloc (size : Z)
| SWrite (fname : string) (NrTotal NzTotal : Z)
| SStart
| SSolve (m : Z * Z)
| SStop
| SFree.

Definition steps (t : list event) : list step :=
  omap (λ ev, match ev with
              | EvPrintf _ _ | EvMkdir _ => None
              | EvMalloc n => Some (SMalloc n)
              | EvWriteFile _ n a b => Some (SWrite n a b)
              | EvPardisoStart _ _ => Some SStart
              | EvSolve c => Some (SSolve (mode c))
              | EvPardisoStop => Some SStop
              | EvFree _ => Some SFree
              end) t.

(** The steps of a run that goes through lines 153-293. *)
Definition protocol (g : grid) : list step :=
  replicate 6 (SMalloc (DIM_size_of (DIM g)))
  ++ [SWrite "r.asc" (NrTotal g) (NzTotal g); SWrite "z.asc" (NrTotal g) (NzTotal g);
      SStart;
      SWrite "s.asc" (NrTotal g) (NzTotal g); SWrite "f.asc" (NrTotal g) (NzTotal g)]
  ++ (SSolve <$> benchmark_modes)
  ++ [SWrite "u.asc" (NrTotal g) (NzTotal g); SWrite "res.asc" (NrTotal g) (NzTotal g);
      SStop]
  ++ replicate 6 SFree.

(** Lines 44-151: the parameters of the run, once the output directory is
    settled. *)
Definition prologue (e : env) : M params :=
  p ← get_arguments e;
  _ ← output_directory e p;
  mret p.

(** The events of lines 182-189. *)
Definition alloc_trace (g : grid) : list event :=
  [EvPrintf "ELLSOLVEC: Allocating memory...\n" []]
  ++ replicate 6 (EvMalloc (DIM_size_of (DIM g)))
  ++ [EvPrintf "ELLSOLVEC: Allocated memory.\n" []].

(** The standard input after [opt = getchar(); getchar();]. *)
Definition after_answer (i : list ascii) : list ascii := drop 2 i.

(** The same environment with other contents in the blocks of [malloc]. *)
Definition with_heap (h : nat → Z → float) (e : env) : env :=
  {| argc := argc e; argv_dirname := argv_dirname e; argv_norder := argv_norder e;
     argv_NrInterior := argv_NrInterior e; argv_NzInterior := argv_NzInterior e;
     argv_dr := argv_dr e; argv_dz := argv_dz e;
     stat_fails := stat_fails e; chdir_fails := chdir_fails e; heap := h |}.

(** The blocks that the six calls of [malloc] of lines 183-188 return. *)
Definition blocks (e : env) (g : grid) : fields :=
  let get slot :=
    if decide (DIM_size_of (DIM g) ≤ PTRDIFF_MAX)
    then heap e slot <$> seqZ 0 (DIM_size_of (DIM g) / 8) else [] in
  {| fld_r := get 0%nat; fld_z := get 1%nat; fld_u := get 2%nat;
     fld_f := get 3%nat; fld_s := get 4%nat; fld_res := get 5%nat |}.

Section Chain.

Variable backend : Type.
Variable flat_laplacian : backend → solve_call → backend * solve_result.

(** The call made in state [st] with the flags [m]. *)
Definition call_of (p : params) (g : grid) (st : backend * fields) (m : Z * Z)
    : solve_call :=
  {| sc_u := fld_u st.2; sc_f := fld_f st.2; sc_res := fld_res st.2; sc_s := fld_s st.2;
     sc_uInf := 1.0%float; sc_flags := (1, 1, 1);
     sc_NrInterior := NrInterior p; sc_NzInterior := NzInterior p;
     sc_ghost := ghost g; sc_dr := dr p; sc_dz := dz p;
     sc_norder := norder p; sc_perm := m.1; sc_cgs := m.2 |}.

(** The state that a call leaves. *)
Definition state_after (st : backend * fields) (out : backend * solve_result)
    : backend * fields :=
  (out.1, {| fld_r := fld_r st.2; fld_z := fld_z st.2; fld_u := sr_u out.2;
             fld_f := sr_f out.2; fld_s := sr_s out.2; fld_res := sr_res out.2 |}).

(** The calls made for a list of flags, each on the state left by the one
    before, and the final state. *)
Fixpoint calls_from (p : params) (g : grid) (st : backend * fields) (ms : list (Z * Z))
    : list solve_call * (backend * fields) :=
  match ms with
  | [] => ([], st)
  | m :: ms' =>
      let c := call_of p g st m in
      let rest := calls_from p g (state_after st (flat_laplacian st.1 c)) ms' in
      (c :: rest.1, rest.2)
  end.

End Chain.

Arguments call_of {backend} p g st m.
Arguments state_after {backend} st out.
Arguments calls_from {backend} flat_laplacian p g st ms.



(** [./ELLSOLVEC out 2 1100000 2048 0.5 0.25]: accepted by the tests, with a
    number of points above [INT_MAX]. *)
Definition sample_huge_params : params :=
  {| dirname := "out"; norder := 2; NrInterior := 1100000; NzInterior := 2048;
     dr := 0.5%float; dz := 0.25%float |}.

(** [./ELLSOLVEC out 2 2147483646 64 0.5 0.25]: accepted by the tests, with a
    radial extent above [INT_MAX]. *)
Definition sample_wrapped_params : params :=
  {| dirname := "out"; norder := 2; NrInterior := 2147483646; NzInterior := 64;
     dr := 0.5%float; dz := 0.25%float |}.

(** [./ELLSOLVEC] without arguments, in a fresh directory. *)
Definition sample_prompt_env : env :=
  {| argc := 1; argv_dirname := ""; argv_norder := 0; argv_NrInterior := 0;
     argv_NzInterior := 0; argv_dr := 0%float; argv_dz := 0%float;
     stat_fails := true; chdir_fails := false; heap := λ _ _, 0%float |}.

(** The answers [y] and [n], each followed by a newline. *)
Definition answer_yes : list ascii := ["y"%char; "010"%char].
Definition answer_no : list ascii := ["n"%char; "010"%char].

(** The command line of [sample_env] when the directory exists already and
    cannot be entered. *)
Definition sample_existing_env : env :=
  {| argc := 7; argv_dirname := "out"; argv_norder := 2; argv_NrInterior := 32;
     argv_NzInterior := 32; argv_dr := 0.5%float; argv_dz := 0.25%float;
     stat_fails := false; chdir_fails := true; heap := λ _ _, 0%float |}.

(** The command line of [sample_env] with a radial step that is not a
    number. *)
Definition sample_nan_env : env :=
  {| argc := 7; argv_dirname := "out"; argv_norder := 2; argv_NrInterior := 32;
     argv_NzInterior := 32; argv_dr := PrimFloat.nan; argv_dz := 0.25%float;
     stat_fails := true; chdir_fails := false; heap := λ _ _, 0%float |}.

(** The command lines of [sample_huge_params] and [sample_wrapped_params]. *)
Definition sample_huge_env : env :=
  {| argc := 7; argv_dirname := "out"; argv_norder := 2; argv_NrInterior := 1100000;
     argv_NzInterior := 2048; argv_dr := 0.5%float; argv_dz := 0.25%float;
     stat_fails := true; chdir_fails := false; heap := λ _ _, 0%float |}.


(** The command line of [sample_env] with [NzInterior = 5000]. *)
Definition sample_tall_env : env :=
  {| argc := 7; argv_dirname := "out"; argv_norder := 2; argv_NrInterior := 32;
     argv_NzInterior := 5000; argv_dr := 0.5%float; argv_dz := 0.25%float;
     stat_fails := true; chdir_fails := false; heap := λ _ _, 0%float |}.

(** The five error messages of lines 75-103. *)
Definition order_message (e : env) : event :=
  EvPrintf "ELLSOLVEC: ERROR! Finite difference %d is not supported, only 2 or 4.\n"
    [AInt (argv_norder e)].
Definition NrInterior_message (e : env) : event :=
  EvPrintf "ELLSOLVEC: ERROR! NrInterior = %d is out of range [%d, %d].\n"
    [AInt (argv_NrInterior e); AInt NRINTERIOR_MIN; AInt NRINTERIOR_MAX].
Definition NzInterior_message (e : env) : event :=
  EvPrintf "ELLSOLVEC: ERROR! NzInterior = %d is out of range [%d, %d].\n"
    [AInt (argv_NzInterior e); AInt NZINTERIOR_MIN; AInt NZINTERIOR_MAX].
Definition dr_message (e : env) : event :=
  EvPrintf "ELLSOLVEC: ERROR! dr = %3.3E out of range [%3.3E, %3.3E].\n"
    [ADbl (argv_dr e); ADbl DR_MIN; ADbl DR_MAX].
Definition dz_message (e : env) : event :=
  EvPrintf "ELLSOLVEC: ERROR! dz = %3.3E out of range [%3.3E, %3.3E].\n"
    [ADbl (argv_dz e); ADbl DZ_MIN; ADbl DZ_MAX].

(** * Properties *)

(** ** Machine arithmetic on a representable grid *)

Lemma wrap_id x : Int.in_range x → Int.wrap x = x.
Proof.
  unfold Int.in_range, Int.INT_MIN, Int.INT_MAX, Int.wrap. intros H.
  rewrite Z.mod_small by lia. lia.
Qed.

Lemma wrap_in_range x : Int.in_range (Int.wrap x).
Proof.
  unfold Int.in_range, Int.INT_MIN, Int.INT_MAX, Int.wrap.
  pose proof (Z.mod_pos_bound (x + 2147483648) 4294967296). lia.
Qed.

Lemma IDX_exact Nr Nz i j :
  0 ≤ i < Nr → 0 ≤ j < Nz → Nr * Nz ≤ Int.INT_MAX →
  IDX Nz i j = i * Nz + j ∧ 0 ≤ i * Nz + j < Nr * Nz.
Proof.
  intros Hi Hj Hfit.
  assert (Hb : 0 ≤ i * Nz + j < Nr * Nz) by nia.
  assert (Hm : 0 ≤ i * Nz ≤ i * Nz + j) by nia.
  unfold IDX, Int.add, Int.mul.
  rewrite (wrap_id (i * Nz)) by (unfold Int.in_range, Int.INT_MIN, Int.INT_MAX in *; lia).
  rewrite wrap_id by (unfold Int.in_range, Int.INT_MIN, Int.INT_MAX in *; lia).
  done.
Qed.

Lemma ghost_of_cases n : ghost_of n = 0 ∨ ghost_of n = 2 ∨ ghost_of n = 3.
Proof. unfold ghost_of. repeat case_match; auto. Qed.

Lemma grid_of_representable p :
  representable p →
  grid_of p =
    {| ghost := ghost_of (norder p);
       NrTotal := ghost_of (norder p) + NrInterior p + 1;
       NzTotal := ghost_of (norder p) + NzInterior p + 1;
       DIM := (ghost_of (norder p) + NrInterior p + 1)
              * (ghost_of (norder p) + NzInterior p + 1) |}.
Proof.
  intros (Hr & Hz & Hfit). unfold grid_of.
  pose proof (ghost_of_cases (norder p)) as Hg.
  set (gh := ghost_of (norder p)) in *.
  assert (1 ≤ gh + NrInterior p + 1) by lia.
  assert (1 ≤ gh + NzInterior p + 1) by lia.
  assert (gh + NrInterior p + 1 ≤ Int.INT_MAX) by nia.
  assert (gh + NzInterior p + 1 ≤ Int.INT_MAX) by nia.
  unfold Int.add, Int.mul.
  rewrite !(wrap_id (gh + _)) by (unfold Int.in_range, Int.INT_MIN, Int.INT_MAX in *; lia).
  rewrite !(wrap_id (gh + _ + 1)) by (unfold Int.in_range, Int.INT_MIN, Int.INT_MAX in *; lia).
  rewrite wrap_id by (unfold Int.in_range, Int.INT_MIN, Int.INT_MAX in *; nia).
  done.
Qed.

Lemma documented_representable p : documented p → representable p.
Proof.
  unfold documented, representable, NRINTERIOR_MIN, NRINTERIOR_MAX,
    NZINTERIOR_MIN, NZINTERIOR_MAX, Int.INT_MAX.
  intros (Ho & Hr & Hz & _).
  assert (Hg : 2 ≤ ghost_of (norder p) ≤ 3)
    by (destruct Ho as [-> | ->]; unfold ghost_of; simpl; lia).
  repeat split; try lia. nia.
Qed.

Lemma coordinate_exact gh i step :
  0 ≤ gh ≤ 3 → 0 ≤ i ≤ Int.INT_MAX →
  coordinate gh i step = ((Dbl.of_int (i - gh) + 0.5) * step)%float.
Proof.
  intros Hg Hi. unfold coordinate, Int.sub.
  rewrite wrap_id by (unfold Int.in_range, Int.INT_MIN, Int.INT_MAX in *; lia).
  done.
Qed.

(** ** Loads and stores *)

Lemma store_length a k v a' : store a k v = Some a' → length a' = length a.
Proof.
  unfold store. case_decide; [|done]. intros [= <-]. apply length_insert.
Qed.

Lemma load_store_eq a k v a' : store a k v = Some a' → load a' k = Some v.
Proof.
  unfold store, load. case_decide as Hk; [|done]. intros [= <-].
  rewrite decide_True by lia. apply list_lookup_insert_eq. lia.
Qed.

Lemma load_store_ne a k v a' k' :
  store a k v = Some a' → k' ≠ k → load a' k' = load a k'.
Proof.
  unfold store, load. case_decide as Hk; [|done]. intros [= <-] Hne.
  case_decide; [|done]. apply list_lookup_insert_ne. lia.
Qed.

(** Storing the next cell of a reference array extends the agreement. *)
Lemma store_take a b k v :
  length a = length b → 0 ≤ k →
  take (Z.to_nat k) a = take (Z.to_nat k) b →
  b !! Z.to_nat k = Some v →
  ∃ a', store a k v = Some a' ∧ length a' = length b ∧
        take (Z.to_nat (k + 1)) a' = take (Z.to_nat (k + 1)) b.
Proof.
  intros Hlen Hk Htake Hb.
  pose proof (lookup_lt_Some _ _ _ Hb) as Hlt.
  unfold store. rewrite decide_True by lia.
  eexists; split; [done|]. split; [by rewrite length_insert|].
  replace (Z.to_nat (k + 1)) with (S (Z.to_nat k)) by lia.
  rewrite (take_S_r b _ v) by done.
  rewrite (take_S_r _ _ v) by (apply list_lookup_insert_eq; lia).
  by rewrite take_insert_ge, Htake by lia.
Qed.

(** ** The counted loop *)

Lemma for_loop_inv {S : Type} (P : Z → S → Prop) (body : Z → S → option S) n i s :
  P i s →
  (∀ j t, i ≤ j < i + Z.of_nat n → P j t → ∃ t', body j t = Some t' ∧ P (j + 1) t') →
  ∃ s', for_loop n i body s = Some s' ∧ P (i + Z.of_nat n) s'.
Proof.
  revert i s. induction n as [|n IH]; intros i s Hs Hstep.
  - exists s. split; [done|]. by replace (i + Z.of_nat 0) with i by lia.
  - destruct (Hstep i s) as (t & Hb & Ht); [lia|done|].
    destruct (IH (i + 1) t) as (s' & Hl & Hs'); [done| |].
    + intros j t' Hj. apply Hstep. lia.
    + exists s'. simpl. rewrite Hb. split; [done|].
      by replace (i + Z.of_nat (Datatypes.S n)) with (i + 1 + Z.of_nat n) by lia.
Qed.

(** ** The fill loop computes the closed form *)

Lemma lookup_fmap_seqZ {A} (h : Z → A) n k :
  0 ≤ k < n → (h <$> seqZ 0 n) !! Z.to_nat k = Some (h k).
Proof.
  intros Hk. rewrite list_lookup_fmap, lookup_seqZ_lt by lia.
  simpl. f_equal. f_equal. lia.
Qed.

Lemma div_mod_index Nz i j :
  0 ≤ j < Nz → (i * Nz + j) / Nz = i ∧ (i * Nz + j) mod Nz = j.
Proof.
  intros Hj. split.
  - rewrite Z.add_comm, Z.div_add by lia. rewrite Z.div_small by lia. lia.
  - rewrite Z.add_comm, Z.mod_add by lia. apply Z.mod_small. lia.
Qed.

Section FillCorrect.

Variable exp : float → float.
Variable g : grid.
Variable p : params.

Hypothesis Hr : 0 ≤ NrTotal g.
Hypothesis Hz : 0 ≤ NzTotal g.
Hypothesis Hfit : NrTotal g * NzTotal g ≤ Int.INT_MAX.
Hypothesis Hdim : DIM g = NrTotal g * NzTotal g.

Let n := Z.to_nat (DIM g).

Lemma fill_point_step i j fl :
  0 ≤ i < NrTotal g → 0 ≤ j < NzTotal g →
  fields_length n fl →
  agree_below (i * NzTotal g + j) fl (filled exp g p) →
  ∃ fl', fill_point exp g p i (coordinate (ghost g) i (dr p)) j fl = Some fl' ∧
         fields_length n fl' ∧
         agree_below (i * NzTotal g + j + 1) fl' (filled exp g p).
Proof.
  intros Hi Hj (Lr & Lz & Lu & Lf & Ls & Lres) (Ar & Az & Au & Af & As & Ares).
  destruct (IDX_exact _ _ _ _ Hi Hj Hfit) as [Hk Hb].
  destruct (div_mod_index (NzTotal g) i j Hj) as [Hdiv Hmod].
  set (k := i * NzTotal g + j) in *.
  assert (Hk' : 0 ≤ k < DIM g) by lia.
  assert (Hn : ∀ h : Z → float, length (h <$> seqZ 0 (DIM g)) = n)
    by (intros h; by rewrite length_fmap, length_seqZ).
  unfold fill_point. rewrite Hk. simpl in *.
  destruct (store_take (fld_r fl) _ k (coordinate (ghost g) i (dr p))
              ltac:(by rewrite Lr, Hn) ltac:(lia) Ar) as (r' & -> & Lr' & Ar').
  { rewrite lookup_fmap_seqZ by done. unfold cell_r. by rewrite Hdiv. }
  destruct (store_take (fld_z fl) _ k (coordinate (ghost g) j (dz p))
              ltac:(by rewrite Lz, Hn) ltac:(lia) Az) as (z' & -> & Lz' & Az').
  { rewrite lookup_fmap_seqZ by done. unfold cell_z. by rewrite Hmod. }
  destruct (store_take (fld_u fl) _ k 1.0%float
              ltac:(by rewrite Lu, Hn) ltac:(lia) Au) as (u' & -> & Lu' & Au').
  { by rewrite lookup_fmap_seqZ. }
  destruct (store_take (fld_f fl) _ k 0.0%float
              ltac:(by rewrite Lf, Hn) ltac:(lia) Af) as (f' & -> & Lf' & Af').
  { by rewrite lookup_fmap_seqZ. }
  destruct (store_take (fld_res fl) _ k 0.0%float
              ltac:(by rewrite Lres, Hn) ltac:(lia) Ares) as (res' & -> & Lres' & Ares').
  { by rewrite lookup_fmap_seqZ. }
  destruct (store_take (fld_s fl) _ k
              (linear_source exp (coordinate (ghost g) i (dr p))
                                 (coordinate (ghost g) j (dz p)))
              ltac:(by rewrite Ls, Hn) ltac:(lia) As) as (s' & -> & Ls' & As').
  { rewrite lookup_fmap_seqZ by done. unfold cell_s, cell_r, cell_z.
    by rewrite Hdiv, Hmod. }
  simpl. eexists; split; [done|].
  rewrite Hn in *. by repeat split.
Qed.

Lemma fill_row_step i fl :
  0 ≤ i < NrTotal g →
  fields_length n fl →
  agree_below (i * NzTotal g) fl (filled exp g p) →
  ∃ fl', fill_row exp g p i fl = Some fl' ∧
         fields_length n fl' ∧
         agree_below ((i + 1) * NzTotal g) fl' (filled exp g p).
Proof.
  intros Hi Hlen Hag. unfold fill_row.
  destruct (Z_le_gt_dec (NzTotal g) 0) as [Hz0 | Hz0].
  { replace (Z.to_nat (NzTotal g)) with 0%nat by lia. simpl.
    exists fl. split; [done|]. split; [done|].
    unfold agree_below in *.
    replace (Z.to_nat ((i + 1) * NzTotal g)) with 0%nat by nia.
    by rewrite !take_0. }
  destruct (for_loop_inv
              (λ j t, fields_length n t ∧
                      agree_below (i * NzTotal g + j) t (filled exp g p))
              (fill_point exp g p i (coordinate (ghost g) i (dr p)))
              (Z.to_nat (NzTotal g)) 0 fl) as (fl' & Hrun & Hlen' & Hag').
  - split; [done|]. by rewrite Z.add_0_r.
  - intros j t Hj [Ht1 Ht2].
    destruct (fill_point_step i j t) as (t' & ? & ? & ?); [done|lia|done|done|].
    exists t'. split; [done|]. split; [done|].
    by replace (i * NzTotal g + (j + 1)) with (i * NzTotal g + j + 1) by lia.
  - exists fl'. split; [done|]. split; [done|].
    by replace ((i + 1) * NzTotal g)
      with (i * NzTotal g + (0 + Z.of_nat (Z.to_nat (NzTotal g)))) by lia.
Qed.

(** Total correctness of the fill loop: on six blocks of [DIM] cells it
    ends without a fault, and leaves the closed form. *)
Lemma fill_grids_filled fl :
  fields_length n fl →
  fill_grids exp g p fl = Some (filled exp g p).
Proof.
  intros Hlen. unfold fill_grids.
  destruct (for_loop_inv
              (λ i t, fields_length n t ∧
                      agree_below (i * NzTotal g) t (filled exp g p))
              (fill_row exp g p) (Z.to_nat (NrTotal g)) 0 fl)
    as (fl' & Hrun & Hlen' & Hag').
  - split; [done|]. unfold agree_below. simpl. by rewrite !take_0.
  - intros i t Hi [Ht1 Ht2]. destruct (fill_row_step i t) as (t' & ? & ? & ?);
      [lia|done|done|]. by exists t'.
  - rewrite Hrun. f_equal.
    destruct (Z_le_gt_dec (NrTotal g) 0) as [Hr0 | Hr0].
    + (* no iteration: the blocks are empty *)
      assert (n = 0%nat) as Hn0.
      { unfold n. replace (NrTotal g) with 0 in Hdim by lia. lia. }
      destruct Hlen' as (L1 & L2 & L3 & L4 & L5 & L6). rewrite Hn0 in *.
      destruct fl' as [a1 a2 a3 a4 a5 a6]. simpl in *.
      apply nil_length_inv in L1, L2, L3, L4, L5, L6. subst.
      unfold filled. rewrite seqZ_nil by (fold n in Hn0; lia). done.
    + replace ((0 + Z.of_nat (Z.to_nat (NrTotal g))) * NzTotal g)
        with (DIM g) in Hag' by lia.
      destruct Hlen' as (L1 & L2 & L3 & L4 & L5 & L6).
      destruct Hag' as (A1 & A2 & A3 & A4 & A5 & A6).
      assert (Hn : ∀ h : Z → float, length (h <$> seqZ 0 (DIM g)) = n)
        by (intros h; by rewrite length_fmap, length_seqZ).
      fold n in A1, A2, A3, A4, A5, A6.
      destruct fl' as [a1 a2 a3 a4 a5 a6]. unfold filled in *. simpl in *.
      rewrite take_ge in A1, A2, A3, A4, A5, A6 by lia.
      rewrite take_ge in A1, A2, A3, A4, A5, A6 by (rewrite Hn; lia).
      by subst.
Qed.

End FillCorrect.

(** ** Runs of the driver *)

Lemma get_arguments_argv e i :
  argc e = 7 → name_fits e →
  (fails_checks e = true ∧
   ∃ fmt args, run (get_arguments e) i = (Exit 1, i, [EvPrintf fmt args])) ∨
  (fails_checks e = false ∧ run (get_arguments e) i = (Ret (params_of_argv e), i, [])).
Proof.
  intros Hargc Hfit. unfold get_arguments, fails_checks, params_of_argv. rewrite Hargc.
  change (negb (7 =? 7)) with false. cbv iota.
  unfold strcpy. rewrite decide_True by done.
  destruct (negb (argv_norder e =? 2) && negb (argv_norder e =? 4)).
  { left. split; [done|]. by eexists _, _. }
  destruct ((argv_NrInterior e <? NRINTERIOR_MIN) || (argv_NzInterior e >? NRINTERIOR_MAX)).
  { left. split; [done|]. by eexists _, _. }
  destruct ((argv_NzInterior e <? NZINTERIOR_MIN) || (argv_NzInterior e >? NZINTERIOR_MAX)).
  { left. split; [done|]. by eexists _, _. }
  destruct ((argv_dr e <? DR_MIN)%float || (DR_MAX <? argv_dr e)%float).
  { left. split; [done|]. by eexists _, _. }
  destruct ((argv_dz e <? DZ_MIN)%float || (DZ_MAX <? argv_dz e)%float).
  { left. split; [done|]. by eexists _, _. }
  right. done.
Qed.

(** A name that does not fit: the copy of line 69 runs over the buffer,
    before any test. *)
Lemma get_arguments_overflow e i :
  argc e = 7 → ¬ name_fits e → run (get_arguments e) i = (Fault, i, []).
Proof.
  intros Hargc Hfit. unfold get_arguments. rewrite Hargc.
  change (negb (7 =? 7)) with false. cbv iota.
  unfold strcpy. by rewrite decide_False by done.
Qed.

Lemma get_arguments_default e i :
  argc e ≠ 7 →
  ∃ i' t, solves t = [] ∧ mallocs t = [] ∧
    (run (get_arguments e) i = (Exit 1, i', t) ∨
     run (get_arguments e) i = (Ret default_params, i', t)).
Proof.
  intros Hargc. unfold get_arguments.
  replace (argc e =? 7) with false by (symmetry; by apply Z.eqb_neq).
  cbn [negb].
  destruct i as [|c1 [|c2 i]]; cbn -[is_yes];
    try destruct (is_yes _); cbn; eexists _, _;
    (split; [|split; [|(left; reflexivity) || (right; reflexivity)]]); done.
Qed.

Lemma output_directory_cases e p i :
  ∃ i' t, solves t = [] ∧ mallocs t = [] ∧
    (run (output_directory e p) i = (Exit 1, i', t) ∨
     run (output_directory e p) i = (Ret tt, i', t)).
Proof.
  unfold output_directory.
  destruct (stat_fails e), (chdir_fails e);
    destruct i as [|c1 [|c2 [|c3 [|c4 i]]]]; cbn -[is_yes];
    repeat match goal with
           | |- context [is_yes ?o] => destruct (is_yes o); cbn -[is_yes]
           end;
    eexists _, _;
    (split; [|split; [|(left; reflexivity) || (right; reflexivity)]]); done.
Qed.

Lemma DIM_size_exact n : 0 ≤ n ≤ Int.INT_MAX → DIM_size_of n = 8 * n.
Proof.
  unfold DIM_size_of, size_of_int, Int.INT_MAX. intros Hn.
  rewrite (Z.mod_small n) by lia. rewrite Z.mod_small by lia. lia.
Qed.

Section Runs.
Variable exp : float → float.
Variable backend : Type.
Variable pardiso_start : Z → Z → backend.
Variable flat_laplacian : backend → solve_call → backend * solve_result.

Abbreviation compute := (compute exp backend pardiso_start flat_laplacian).
Abbreviation benchmark := (benchmark backend flat_laplacian).

Lemma benchmark_run p g st i :
  ∃ st' t, run (benchmark p g st) i = (Ret st', i, t) ∧
           mode <$> solves t = benchmark_modes ∧ mallocs t = [] ∧
           head (solves t) =
             Some {| sc_u := fld_u st.2; sc_f := fld_f st.2; sc_res := fld_res st.2;
                     sc_s := fld_s st.2; sc_uInf := 1.0%float; sc_flags := (1, 1, 1);
                     sc_NrInterior := NrInterior p; sc_NzInterior := NzInterior p;
                     sc_ghost := ghost g; sc_dr := dr p; sc_dz := dz p;
                     sc_norder := norder p; sc_perm := 0; sc_cgs := 0 |}.
Proof. eexists _, _. cbn. done. Qed.

Lemma compute_cases e p i :
  let x := run (compute e p) i in
  (outcome x = Ret 0 ∧ mode <$> solves (trace x) = benchmark_modes) ∨
  (outcome x = Fault ∧ solves (trace x) = []).
Proof.
  unfold compute, compute_with. cbn -[fill_grids grid_of DIM_size_of seqZ].
  destruct (fill_grids _ _ _ _) as [fl|]; cbn -[grid_of DIM_size_of seqZ].
  - by left.
  - by right.
Qed.

Lemma compute_run e p i :
  representable p →
  ∃ t, run (compute e p) i = (Ret 0, i, t) ∧
       mallocs t = replicate 6 (8 * DIM (grid_of p)) ∧
       mode <$> solves t = benchmark_modes ∧
       head (solves t) = Some (first_call exp p).
Proof.
  intros Hrep. pose proof (grid_of_representable p Hrep) as Hg.
  destruct Hrep as (Hr & Hz & Hfit).
  pose proof (ghost_of_cases (norder p)) as Hgh.
  assert (HD : 0 ≤ DIM (grid_of p) ≤ Int.INT_MAX) by (rewrite Hg; simpl; nia).
  unfold compute, compute_with. cbn -[fill_grids grid_of DIM_size_of seqZ filled].
  rewrite (DIM_size_exact _ HD).
  rewrite decide_True by (unfold PTRDIFF_MAX, Int.INT_MAX in *; lia).
  replace (8 * DIM (grid_of p) / 8) with (DIM (grid_of p))
    by (symmetry; rewrite Z.mul_comm; apply Z.div_mul; lia).
  rewrite (fill_grids_filled exp (grid_of p) p).
  - cbn -[grid_of filled]. eexists. split; [reflexivity|]. cbn -[grid_of filled].
    repeat (split; [reflexivity|]). reflexivity.
  - rewrite Hg; simpl; lia.
  - rewrite Hg; simpl; lia.
  - rewrite Hg; simpl; lia.
  - rewrite Hg; simpl; lia.
  - unfold fields_length. cbn [fld_r fld_z fld_u fld_f fld_s fld_res].
    rewrite ?decide_True by (unfold PTRDIFF_MAX, Int.INT_MAX in *; lia).
    by rewrite !length_fmap, !length_seqZ.
Qed.

Abbreviation driver := (main exp backend pardiso_start flat_laplacian).

Lemma solves_app t t' : solves (t ++ t') = solves t ++ solves t'.
Proof. apply omap_app. Qed.

Lemma mallocs_app t t' : mallocs (t ++ t') = mallocs t ++ mallocs t'.
Proof. apply omap_app. Qed.

Lemma run_bind {A B} (m : M A) (k : A → M B) i :
  run (m ≫= k) i =
    match run m i with
    | (Ret a, i', t) => let '(r, i'', t') := run (k a) i' in (r, i'', t ++ t')
    | (Exit c, i', t) => (Exit c, i', t)
    | (Fault, i', t) => (Fault, i', t)
    | (Hang, i', t) => (Hang, i', t)
    end.
Proof. reflexivity. Qed.

(** The run of [main] is the run of its three parts in sequence. *)
Lemma main_unfold e i :
  run (driver e) i =
    match run (get_arguments e) i with
    | (Ret p, i1, t1) =>
        match run (output_directory e p) i1 with
        | (Ret _, i2, t2) =>
            let '(r, i3, t3) := run (compute e p) i2 in (r, i3, t1 ++ t2 ++ t3)
        | (Exit c, i2, t2) => (Exit c, i2, t1 ++ t2)
        | (Fault, i2, t2) => (Fault, i2, t1 ++ t2)
        | (Hang, i2, t2) => (Hang, i2, t1 ++ t2)
        end
    | (Exit c, i1, t1) => (Exit c, i1, t1)
    | (Fault, i1, t1) => (Fault, i1, t1)
    | (Hang, i1, t1) => (Hang, i1, t1)
    end.
Proof.
  unfold main, main_with. rewrite run_bind.
  destruct (run (get_arguments e) i) as [[[p|c| |] i1] t1]; [|done|done|done].
  rewrite run_bind.
  destruct (run (output_directory e p) i1) as [[[[]|c| |] i2] t2]; [|done|done|done].
  change (compute_with exp backend pardiso_start (returning backend flat_laplacian) e p)
    with (compute e p).
  by destruct (run (compute e p) i2) as [[r i3] t3].
Qed.

Lemma get_arguments_cases e i :
  ∃ i' t, solves t = [] ∧ mallocs t = [] ∧
    (run (get_arguments e) i = (Exit 1, i', t) ∨
     (∃ p, run (get_arguments e) i = (Ret p, i', t)) ∨
     (argc e = 7 ∧ ¬ name_fits e ∧ run (get_arguments e) i = (Fault, i', t))).
Proof.
  destruct (Z.eq_dec (argc e) 7) as [Hargc | Hargc].
  - destruct (decide (name_fits e)) as [Hfit | Hfit].
    + destruct (get_arguments_argv e i Hargc Hfit) as [(_ & fmt & args & ->) | (_ & ->)];
        eexists _, _;
        (split; [|split; [|(left; reflexivity) || (right; left; by eexists)]]); done.
    + exists i, []. rewrite (get_arguments_overflow e i Hargc Hfit).
      split; [done|]. split; [done|]. right; right. done.
  - destruct (get_arguments_default e i Hargc) as (i' & t & ? & ? & [-> | ->]);
      exists i', t;
      (split; [|split; [|(left; reflexivity) || (right; left; by eexists)]]); done.
Qed.

(** Every run of [main] either completes the five solves and returns 0,
    or calls [exit(1)] before any allocation and any solve, or faults, at
    the copy of the directory name or in the fill loop, before any solve. *)
Lemma main_cases e i :
  let x := run (driver e) i in
  (outcome x = Ret 0 ∧ mode <$> solves (trace x) = benchmark_modes) ∨
  (outcome x = Exit 1 ∧ solves (trace x) = [] ∧ mallocs (trace x) = []) ∨
  (outcome x = Fault ∧ solves (trace x) = []).
Proof.
  cbv zeta. rewrite main_unfold.
  destruct (get_arguments_cases e i) as (i1 & t1 & S1 & M1 & [-> | [[p ->] | (_ & _ & ->)]]).
  { right; left. by repeat split. }
  2: { right; right. by repeat split. }
  destruct (output_directory_cases e p i1) as (i2 & t2 & S2 & M2 & [-> | ->]).
  { right; left. unfold outcome, trace. simpl.
    rewrite solves_app, mallocs_app, S1, S2, M1, M2. by repeat split. }
  pose proof (compute_cases e p i2) as Hc. cbv zeta in Hc.
  destruct (run (compute e p) i2) as [[r i3] t3].
  unfold outcome, trace in *. simpl in *.
  rewrite !solves_app, S1, S2. simpl.
  destruct Hc as [[-> Hs] | [-> Hs]]; [by left | right; right; by rewrite Hs].
Qed.

(** A command line with a name that fits, that passes the five tests, in a
    fresh directory, with a representable grid: the run completes. *)
Lemma main_run e i :
  argc e = 7 → name_fits e → fails_checks e = false →
  stat_fails e = true → chdir_fails e = false →
  representable (params_of_argv e) →
  let p := params_of_argv e in
  ∃ t, run (driver e) i = (Ret 0, i, EvMkdir (dirname p) :: t) ∧
       mallocs t = replicate 6 (8 * DIM (grid_of p)) ∧
       mode <$> solves t = benchmark_modes ∧
       head (solves t) = Some (first_call exp p).
Proof.
  intros Hargc Hfit Hchk Hstat Hcd Hrep p.
  destruct (get_arguments_argv e i Hargc Hfit) as [(Hc & _) | (_ & Hga)]; [congruence|].
  destruct (compute_run e p i Hrep) as (t & Hrun & Hrest).
  exists t. split; [|done].
  rewrite main_unfold, Hga. fold p.
  unfold output_directory. rewrite Hstat, Hcd. cbn [run mbind M_mbind M_bind emit mret M_mret M_ret].
  by rewrite Hrun.
Qed.

(** A command line with a name that fits, on which one of the five tests
    fires: one message, then [exit(1)]. *)
Lemma main_rejects e i :
  argc e = 7 → name_fits e → fails_checks e = true →
  ∃ fmt args, run (driver e) i = (Exit 1, i, [EvPrintf fmt args]).
Proof.
  intros Hargc Hfit Hchk.
  destruct (get_arguments_argv e i Hargc Hfit) as [(_ & fmt & args & Hga) | (Hc & _)];
    [|congruence].
  exists fmt, args. by rewrite main_unfold, Hga.
Qed.

End Runs.

(** ** Runs with a solver whose calls can end in any way *)

Lemma run_allocate e g i : run (allocate e g) i = (Ret (blocks e g), i, alloc_trace g).
Proof. reflexivity. Qed.


Lemma run_bind_congr {A B} (m m' : M A) (k k' : A → M B) i :
  run m i = run m' i → (∀ a i', run (k a) i' = run (k' a) i') →
  run (m ≫= k) i = run (m' ≫= k') i.
Proof.
  intros Hm Hk. rewrite !run_bind, <- Hm.
  destruct (run m i) as [[[a|c| |] i'] t]; [by rewrite Hk|done..].
Qed.

Section AnySolver.

Variable exp : float → float.
Variable backend : Type.
Variable pardiso_start : Z → Z → backend.
Variable sv : backend → solve_call → solver_end backend.















End AnySolver.

Section Reported.

Variable exp : float → float.
Variable backend : Type.
Variable pardiso_start : Z → Z → backend.

(** The driver sees of [flat_laplacian] no more than [solve_with] does. *)
Lemma benchmark_with_congr ext ext' :
  (∀ p g perm cgs st i,
     run (solve_with backend ext p g perm cgs st) i
       = run (solve_with backend ext' p g perm cgs st) i) →
  ∀ p g st i, run (benchmark_with backend ext p g st) i
              = run (benchmark_with backend ext' p g st) i.
Proof.
  intros H p g st i. unfold benchmark_with.
  do 9 (apply run_bind_congr; [first [apply H | reflexivity] | intros ? ?]).
  apply H.
Qed.

Lemma main_with_congr ext ext' :
  (∀ p g perm cgs st i,
     run (solve_with backend ext p g perm cgs st) i
       = run (solve_with backend ext' p g perm cgs st) i) →
  ∀ e i, run (main_with exp backend pardiso_start ext e) i
         = run (main_with exp backend pardiso_start ext' e) i.
Proof.
  intros H e i. unfold main_with, compute_with.
  do 12 (cbv zeta; apply run_bind_congr;
         [first [by apply benchmark_with_congr | reflexivity] | intros ? ?]).
  reflexivity.
Qed.


(** [main] is [main_with] for a solver all of whose calls return. *)
Lemma main_with_returns (flat_laplacian : backend → solve_call → backend * solve_result)
    e i :
  run (main exp backend pardiso_start flat_laplacian e) i
    = run (main_with exp backend pardiso_start
             (ending (λ b c, Returns (flat_laplacian b c).1 (flat_laplacian b c).2)) e) i.
Proof. unfold main. by apply main_with_congr. Qed.

End Reported.

(** ** Grid dimensions *)

(** Within the announced ranges the three assignments of lines 163-165 do
    not overflow. *)
Lemma totals_documented p :
  documented p →
  let g := grid_of p in
  NrTotal g = ghost g + NrInterior p + 1 ∧
  NzTotal g = ghost g + NzInterior p + 1 ∧
  DIM g = NrTotal g * NzTotal g.
Proof.
  intros Hdoc. apply documented_representable, grid_of_representable in Hdoc.
  cbv zeta. by rewrite Hdoc.
Qed.

(** C2: the total extents are [ghost + interior + 1] and [DIM] is their
    product for every accepted configuration. The driver accepts
    [./ELLSOLVEC dir 2 2147483646 64 0.5 0.5], for a name [dir] that fits in
    [dirname], because line 82 tests [NzInterior] against the upper bound of
    [NrInterior]; for that configuration [ghost + NrInterior + 1] is not an
    [int], and neither [NrTotal] nor [DIM] has the value that the claim
    gives. *)
Theorem total_extent_overflows_on_accepted_input dir st cd hp i :
  (String.length dir < 256)%nat →
  let e := {| argc := 7; argv_dirname := dir; argv_norder := 2;
              argv_NrInterior := 2147483646; argv_NzInterior := 64;
              argv_dr := 0.5%float; argv_dz := 0.5%float;
              stat_fails := st; chdir_fails := cd; heap := hp |} in
  let p := params_of_argv e in
  let g := grid_of p in
  run (get_arguments e) i = (Ret p, i, []) ∧
  ghost g = 2 ∧
  NrTotal g = -2147483647 ∧
  NrTotal g ≠ ghost g + NrInterior p + 1 ∧
  DIM g ≠ (ghost g + NrInterior p + 1) * (ghost g + NzInterior p + 1).
Proof.
  intros Hfit. cbv zeta. split; [|by vm_compute].
  match goal with |- run (get_arguments ?e) _ = _ =>
    destruct (get_arguments_argv e i eq_refl Hfit) as [(Hc & _) | (_ & ->)]
  end; [by vm_compute in Hc | done].
Qed.

Lemma total_extent_overflows_on_accepted_input_witness :
  (String.length "out" < 256)%nat ∧
  NrTotal (grid_of sample_wrapped_params) = -2147483647.
Proof.
  assert (H : (String.length "out" < 256)%nat) by (cbn; lia).
  split; [exact H|].
  exact (proj1 (proj2 (proj2
    (total_extent_overflows_on_accepted_input "out" true false (λ _ _, 0%float) [] H)))).
Defined.

(** C3: the ghost width depends on the finite-difference order only; it is
    2 for order 2 and 3 for order 4 (and keeps its initial value 0 for any
    other order, which the argument checks exclude). *)
Theorem ghost_width_by_order p p' :
  norder p = norder p' →
  ghost (grid_of p') = ghost (grid_of p) ∧
  ((norder p = 2 ∧ ghost (grid_of p) = 2) ∨
   (norder p = 4 ∧ ghost (grid_of p) = 3) ∨
   (norder p ≠ 2 ∧ norder p ≠ 4 ∧ ghost (grid_of p) = 0)).
Proof.
  intros Ho. unfold grid_of. cbn [ghost]. rewrite <- Ho. split; [done|].
  unfold ghost_of.
  destruct (Z.eqb_spec (norder p) 2) as [->|]; [by left|].
  destruct (Z.eqb_spec (norder p) 4) as [->|]; [right; by left|].
  right; right. done.
Qed.

Lemma ghost_width_by_order_witness :
  norder default_params = norder (MkParams "out" 2 32 32 0.5 0.5) ∧
  ghost (grid_of (MkParams "out" 2 32 32 0.5 0.5)) = ghost (grid_of default_params) ∧
  ((norder default_params = 2 ∧ ghost (grid_of default_params) = 2) ∨
   (norder default_params = 4 ∧ ghost (grid_of default_params) = 3) ∨
   (norder default_params ≠ 2 ∧ norder default_params ≠ 4 ∧
    ghost (grid_of default_params) = 0)).
Proof.
  split; [reflexivity|].
  apply (ghost_width_by_order default_params (MkParams "out" 2 32 32 0.5 0.5)).
  reflexivity.
Defined.

(** ** The fill loop *)

(** The coordinate of index 0, for the three values that [ghost] takes. *)
Lemma first_coordinate gh :
  gh = 0 ∨ gh = 2 ∨ gh = 3 →
  (Dbl.of_int (0 - gh) + 0.5)%float = (0.5 - Dbl.of_int gh)%float.
Proof. intros [-> | [-> | ->]]; by vm_compute. Qed.

Lemma representable_grid p :
  representable p →
  let g := grid_of p in
  (ghost g = 0 ∨ ghost g = 2 ∨ ghost g = 3) ∧
  0 < NrTotal g ∧ 0 < NzTotal g ∧
  NrTotal g * NzTotal g ≤ Int.INT_MAX ∧ DIM g = NrTotal g * NzTotal g.
Proof.
  intros Hrep. cbv zeta. rewrite (grid_of_representable p Hrep).
  destruct Hrep as (Hr & Hz & Hfit).
  pose proof (ghost_of_cases (norder p)). simpl. repeat split; try done; lia.
Qed.

Lemma load_fmap_seqZ (h : Z → float) n k :
  0 ≤ k < n → load (h <$> seqZ 0 n) k = Some (h k).
Proof.
  intros Hk. unfold load. rewrite decide_True by lia. by apply lookup_fmap_seqZ.
Qed.

Section FillClaims.

Variable exp : float → float.

(** C4: for every grid point [(i, j)] the fill loop ends with
  [r = (i - ghost + 0.5) * dr] and [z = (j - ghost + 0.5) * dz] stored at
  that point; the points of index 0 in each axis have the coordinate
  [(0.5 - ghost) * step]. *)
Theorem fill_stores_coordinates p fl0 i j :
representable p →
fields_length (Z.to_nat (DIM (grid_of p))) fl0 →
0 ≤ i < NrTotal (grid_of p) →
0 ≤ j < NzTotal (grid_of p) →
let g := grid_of p in
∃ fl, fill_grids exp g p fl0 = Some fl ∧
  load (fld_r fl) (IDX (NzTotal g) i j)
    = Some ((Dbl.of_int (i - ghost g) + 0.5) * dr p)%float ∧
  load (fld_z fl) (IDX (NzTotal g) i j)
    = Some ((Dbl.of_int (j - ghost g) + 0.5) * dz p)%float ∧
  load (fld_r fl) (IDX (NzTotal g) 0 j)
    = Some ((0.5 - Dbl.of_int (ghost g)) * dr p)%float ∧
  load (fld_z fl) (IDX (NzTotal g) i 0)
    = Some ((0.5 - Dbl.of_int (ghost g)) * dz p)%float.
Proof.
intros Hrep Hlen Hi Hj.
destruct (representable_grid p Hrep) as (Hgh & Hr & Hz & Hfit & Hdim).
cbv zeta. set (g := grid_of p) in *.
exists (filled exp g p).
split; [apply fill_grids_filled; (lia || done)|].
assert (Hmax : NrTotal g ≤ Int.INT_MAX ∧ NzTotal g ≤ Int.INT_MAX) by (unfold Int.INT_MAX in *; nia).
assert (Hcell : ∀ a b, 0 ≤ a < NrTotal g → 0 ≤ b < NzTotal g →
          load (fld_r (filled exp g p)) (IDX (NzTotal g) a b)
            = Some ((Dbl.of_int (a - ghost g) + 0.5) * dr p)%float ∧
          load (fld_z (filled exp g p)) (IDX (NzTotal g) a b)
            = Some ((Dbl.of_int (b - ghost g) + 0.5) * dz p)%float).
{ intros a b Ha Hb.
  destruct (IDX_exact _ _ _ _ Ha Hb Hfit) as [-> Hk].
  destruct (div_mod_index (NzTotal g) a b Hb) as [Hdiv Hmod].
  unfold filled. cbn [fld_r fld_z].
  rewrite !load_fmap_seqZ by lia. unfold cell_r, cell_z. rewrite Hdiv, Hmod.
  rewrite !coordinate_exact by lia. done. }
destruct (Hcell i j Hi Hj) as [-> ->].
destruct (Hcell 0 j ltac:(lia) Hj) as [-> _].
destruct (Hcell i 0 Hi ltac:(lia)) as [_ ->].
rewrite !first_coordinate by done. done.
Qed.


End FillClaims.

Lemma fill_stores_coordinates_witness :
  representable sample_params ∧
  fields_length (Z.to_nat (DIM (grid_of sample_params))) sample_blocks ∧
  0 ≤ 5 < NrTotal (grid_of sample_params) ∧
  0 ≤ 7 < NzTotal (grid_of sample_params) ∧
  ∃ fl, fill_grids sample_exp (grid_of sample_params) sample_params sample_blocks = Some fl ∧
    load (fld_r fl) 182 = Some 1.75%float ∧
    load (fld_z fl) 182 = Some 1.375%float ∧
    load (fld_r fl) 7 = Some (-0.75)%float ∧
    load (fld_z fl) 175 = Some (-0.375)%float.
Proof.
  assert (H1 : representable sample_params) by (repeat split; by vm_compute).
  assert (H2 : fields_length (Z.to_nat (DIM (grid_of sample_params))) sample_blocks)
    by (repeat split; by vm_compute).
  assert (H3 : 0 ≤ 5 < NrTotal (grid_of sample_params)) by (by vm_compute).
  assert (H4 : 0 ≤ 7 < NzTotal (grid_of sample_params)) by (by vm_compute).
  exact (conj H1 (conj H2 (conj H3 (conj H4
    (fill_stores_coordinates sample_exp sample_params sample_blocks 5 7 H1 H2 H3 H4))))).
Defined.


Section IndexClaims.

Variable exp : float → float.

(** C5: the index of the point [(i, j)] is [k = i * NzTotal + j]; it lies in
  [0, DIM) and distinct points have distinct indices. Whatever the six
  arrays hold, the iteration of the fill loop for [(i, j)] stores at [k]
  the radial coordinate it is given in [r], the axial coordinate of [j] in
  [z], 1.0 in [u], 0.0 in [f] and in [res], and the source of the two
  coordinates in [s]; every other cell of the six arrays keeps its
  value. *)
Theorem IDX_row_major p fl aux_r i j :
representable p →
fields_length (Z.to_nat (DIM (grid_of p))) fl →
0 ≤ i < NrTotal (grid_of p) →
0 ≤ j < NzTotal (grid_of p) →
let g := grid_of p in
let k := i * NzTotal g + j in
IDX (NzTotal g) i j = k ∧
0 ≤ k < DIM g ∧
(∀ i' j', 0 ≤ i' < NrTotal g → 0 ≤ j' < NzTotal g →
   IDX (NzTotal g) i' j' = IDX (NzTotal g) i j → i' = i ∧ j' = j) ∧
∃ fl', fill_point exp g p i aux_r j fl = Some fl' ∧
       load (fld_r fl') k = Some aux_r ∧
       load (fld_z fl') k = Some (coordinate (ghost g) j (dz p)) ∧
       load (fld_u fl') k = Some 1.0%float ∧
       load (fld_f fl') k = Some 0.0%float ∧
       load (fld_res fl') k = Some 0.0%float ∧
       load (fld_s fl') k
         = Some (linear_source exp aux_r (coordinate (ghost g) j (dz p))) ∧
       same_except k fl fl'.
Proof.
intros Hrep (Lr & Lz & Lu & Lf & Ls & Lres) Hi Hj.
destruct (representable_grid p Hrep) as (Hgh & Hr & Hz & Hfit & Hdim).
cbv zeta. set (g := grid_of p) in *.
destruct (IDX_exact _ _ _ _ Hi Hj Hfit) as [Hk Hb].
split; [done|]. split; [lia|]. split.
{ intros i' j' Hi' Hj' Heq.
  destruct (IDX_exact _ _ _ _ Hi' Hj' Hfit) as [Hk' _].
  rewrite Hk, Hk' in Heq.
  destruct (div_mod_index (NzTotal g) i j Hj) as [D M].
  destruct (div_mod_index (NzTotal g) i' j' Hj') as [D' M'].
  rewrite Heq in D', M'. split; congruence. }
unfold fill_point. rewrite Hk. set (k := i * NzTotal g + j) in *.
assert (Hst : ∀ a v, length a = Z.to_nat (DIM g) → ∃ a', store a k v = Some a')
  by (intros a v La; unfold store; rewrite decide_True by lia; by eexists).
destruct (Hst (fld_r fl) aux_r Lr) as [r' Er].
destruct (Hst (fld_z fl) (coordinate (ghost g) j (dz p)) Lz) as [z' Ez].
destruct (Hst (fld_u fl) 1.0%float Lu) as [u' Eu].
destruct (Hst (fld_f fl) 0.0%float Lf) as [f' Ef].
destruct (Hst (fld_res fl) 0.0%float Lres) as [res' Eres].
destruct (Hst (fld_s fl)
            (linear_source exp aux_r (coordinate (ghost g) j (dz p))) Ls) as [s' Es].
rewrite Er, Ez, Eu, Ef, Eres, Es. cbn [mbind option_bind].
eexists; split; [done|].
cbn [fld_r fld_z fld_u fld_f fld_s fld_res].
rewrite (load_store_eq _ _ _ _ Er), (load_store_eq _ _ _ _ Ez),
  (load_store_eq _ _ _ _ Eu), (load_store_eq _ _ _ _ Ef),
  (load_store_eq _ _ _ _ Es), (load_store_eq _ _ _ _ Eres).
do 6 (split; [reflexivity|]).
- intros k' Hne. cbn [fld_r fld_z fld_u fld_f fld_s fld_res].
  rewrite (load_store_ne _ _ _ _ _ Er Hne), (load_store_ne _ _ _ _ _ Ez Hne),
    (load_store_ne _ _ _ _ _ Eu Hne), (load_store_ne _ _ _ _ _ Ef Hne),
    (load_store_ne _ _ _ _ _ Es Hne), (load_store_ne _ _ _ _ _ Eres Hne).
  by repeat split.
Qed.

End IndexClaims.

Lemma IDX_row_major_witness :
  representable sample_params ∧
  fields_length (Z.to_nat (DIM (grid_of sample_params))) sample_blocks ∧
  0 ≤ 5 < NrTotal (grid_of sample_params) ∧
  0 ≤ 7 < NzTotal (grid_of sample_params) ∧
  IDX 35 5 7 = 182 ∧
  0 ≤ 182 < 1225 ∧
  (∀ i' j', 0 ≤ i' < 35 → 0 ≤ j' < 35 → IDX 35 i' j' = IDX 35 5 7 → i' = 5 ∧ j' = 7) ∧
  ∃ fl', fill_point sample_exp (grid_of sample_params) sample_params 5 1.75%float 7
           sample_blocks = Some fl' ∧
         load (fld_r fl') 182 = Some 1.75%float ∧
         load (fld_z fl') 182 = Some 1.375%float ∧
         load (fld_u fl') 182 = Some 1.0%float ∧
         load (fld_f fl') 182 = Some 0.0%float ∧
         load (fld_res fl') 182 = Some 0.0%float ∧
         load (fld_s fl') 182 = Some (-32.103408813476562)%float ∧
         same_except 182 sample_blocks fl'.
Proof.
  assert (H1 : representable sample_params) by (repeat split; by vm_compute).
  assert (H2 : fields_length (Z.to_nat (DIM (grid_of sample_params))) sample_blocks)
    by (repeat split; by vm_compute).
  assert (H3 : 0 ≤ 5 < NrTotal (grid_of sample_params)) by (by vm_compute).
  assert (H4 : 0 ≤ 7 < NzTotal (grid_of sample_params)) by (by vm_compute).
  exact (conj H1 (conj H2 (conj H3 (conj H4
    (IDX_row_major sample_exp sample_params sample_blocks 1.75%float 5 7 H1 H2 H3 H4))))).
Defined.

Section DriverClaims.

Variable exp : float → float.
Variable backend : Type.
Variable pardiso_start : Z → Z → backend.
Variable flat_laplacian : backend → solve_call → backend * solve_result.

Abbreviation run_main e i := (run (main exp backend pardiso_start flat_laplacian e) i).

(** C1: a command line of seven arguments with a value outside the announced
  ranges ends in a message and a nonzero exit before any solve. The run of
  [./ELLSOLVEC dir 2 4096 64 0.5 0.5] in a fresh directory, for a name
  [dir] that fits in [dirname], contradicts it: [NrInterior = 4096] is above
  2048, no test fires (line 82 compares [NzInterior] with the upper bound),
  the five solves are performed and [main] returns 0. *)
Theorem NrInterior_above_range_is_accepted dir hp i :
(String.length dir < 256)%nat →
let e := {| argc := 7; argv_dirname := dir; argv_norder := 2;
            argv_NrInterior := 4096; argv_NzInterior := 64;
            argv_dr := 0.5%float; argv_dz := 0.5%float;
            stat_fails := true; chdir_fails := false; heap := hp |} in
NRINTERIOR_MAX < argv_NrInterior e ∧
fails_checks e = false ∧
outcome (run_main e i) = Ret 0 ∧
mode <$> solves (trace (run_main e i)) = benchmark_modes.
Proof.
intros Hfit e.
assert (Hchk : fails_checks e = false) by (by vm_compute).
assert (Hrep : representable (params_of_argv e))
  by (repeat split; by vm_compute).
split; [done|]. split; [done|].
destruct (main_run exp backend pardiso_start flat_laplacian e i
            eq_refl Hfit Hchk eq_refl eq_refl Hrep) as (t & Hrun & _ & Hmodes & _).
rewrite Hrun. exact (conj eq_refl Hmodes).
Qed.

(** The tests that the driver does perform: with seven arguments and a
  directory name that fits in [dirname], an order other than 2 and 4, an [NrInterior] below 32, an [NzInterior] outside
  [32, 2048], or a step below [DR_MIN] or above [DR_MAX] ends the run with
  one message and [exit(1)], before any allocation and any solve. *)
Lemma out_of_range_is_rejected e i :
argc e = 7 → name_fits e →
(argv_norder e ≠ 2 ∧ argv_norder e ≠ 4) ∨
argv_NrInterior e < NRINTERIOR_MIN ∨
argv_NzInterior e < NZINTERIOR_MIN ∨ NZINTERIOR_MAX < argv_NzInterior e ∨
(argv_dr e <? DR_MIN)%float = true ∨ (DR_MAX <? argv_dr e)%float = true ∨
(argv_dz e <? DZ_MIN)%float = true ∨ (DZ_MAX <? argv_dz e)%float = true →
∃ fmt args, run_main e i = (Exit 1, i, [EvPrintf fmt args]).
Proof.
intros Hargc Hfit Hbad. apply main_rejects; [done|done|].
unfold fails_checks, NRINTERIOR_MIN, NRINTERIOR_MAX, NZINTERIOR_MIN, NZINTERIOR_MAX in *.
repeat rewrite orb_true_iff. rewrite andb_true_iff, !negb_true_iff.
rewrite !Z.eqb_neq, !Z.ltb_lt, !Z.gtb_ltb, !Z.ltb_lt. tauto.
Qed.

(** C7: every path of [main] that ends in [exit] ends with status 1 and
  without a call of [malloc]; with a directory name that fits in [dirname],
  a failed test of the arguments is such a path; and the argument checks
  come first in every run, allocate nothing, and are followed by nothing
  when they exit. (A directory name of 256 characters or more overruns
  [dirname] at line 69, before the first test: nothing is stated of what
  the tests do then.) *)
Theorem validation_precedes_allocation e i :
(∀ c, outcome (run_main e i) = Exit c →
      c = 1 ∧ mallocs (trace (run_main e i)) = []) ∧
(argc e = 7 → (String.length (argv_dirname e) < 256)%nat → fails_checks e = true →
      outcome (run_main e i) = Exit 1 ∧ mallocs (trace (run_main e i)) = []) ∧
(∃ rest, trace (run_main e i) = trace (run (get_arguments e) i) ++ rest ∧
         mallocs (trace (run (get_arguments e) i)) = [] ∧
         (∀ c, outcome (run (get_arguments e) i) = Exit c → rest = [])).
Proof.
pose proof (main_cases exp backend pardiso_start flat_laplacian e i) as Hc.
cbv zeta in Hc. split; [|split].
- intros c Hexit. rewrite Hexit in Hc.
  destruct Hc as [[? _] | [(? & _ & ?) | [? _]]]; [done| |done].
  split; [congruence|done].
- intros Hargc Hfit Hchk.
  destruct (main_rejects exp backend pardiso_start flat_laplacian e i Hargc Hfit Hchk)
    as (fmt & args & ->). done.
- rewrite main_unfold.
  destruct (get_arguments_cases e i)
    as (i1 & t1 & S1 & M1 & [E | [[p E] | (_ & _ & E)]]); rewrite E.
  { exists []. unfold trace. simpl. by rewrite app_nil_r. }
  2: { exists []. unfold trace. simpl. by rewrite app_nil_r. }
  destruct (run (output_directory e p) i1) as [[[[]|c| |] i2] t2].
  + destruct (run (compute _ _ _ _ e p) i2) as [[r i3] t3].
    exists (t2 ++ t3). by repeat split.
  + exists t2. by repeat split.
  + exists t2. by repeat split.
  + exists t2. by repeat split.
Qed.

(** C10: when [flat_laplacian] is called for the first time, every one of
  the [DIM] cells of [u] holds 1.0 and every one of the cells of [f] and
  [res] holds 0.0. *)
Theorem initial_fields_at_first_solve e i p c k :
outcome (run (get_arguments e) i) = Ret p →
representable p →
head (solves (trace (run_main e i))) = Some c →
0 ≤ k < DIM (grid_of p) →
load (sc_u c) k = Some 1.0%float ∧
load (sc_f c) k = Some 0.0%float ∧
load (sc_res c) k = Some 0.0%float.
Proof.
intros Hga Hrep Hhead Hk.
rewrite main_unfold in Hhead.
destruct (get_arguments_cases e i)
  as (i1 & t1 & S1 & M1 & [E | [[p' E] | (_ & _ & E)]]);
  rewrite E in Hga, Hhead; [done| |done].
injection Hga as ->.
destruct (output_directory_cases e p i1) as (i2 & t2 & S2 & M2 & [E2 | E2]);
  rewrite E2 in Hhead.
{ unfold trace in Hhead. simpl in Hhead. by rewrite solves_app, S1, S2 in Hhead. }
destruct (compute_run exp backend pardiso_start flat_laplacian e p i2 Hrep)
  as (t & Hrun & _ & _ & Hc').
rewrite Hrun in Hhead. unfold trace in Hhead. simpl in Hhead.
rewrite !solves_app, S1, S2 in Hhead. simpl in Hhead.
assert (c = first_call exp p) as -> by congruence.
unfold first_call, filled. cbn [sc_u sc_f sc_res fld_u fld_f fld_res].
by rewrite !load_fmap_seqZ.
Qed.

End DriverClaims.

Lemma NrInterior_above_range_is_accepted_witness :
  (String.length "out" < 256)%nat ∧
  mode <$> solves (trace (run (main sample_exp unit (λ _ _, tt) sample_solver
                                 {| argc := 7; argv_dirname := "out"; argv_norder := 2;
                                    argv_NrInterior := 4096; argv_NzInterior := 64;
                                    argv_dr := 0.5%float; argv_dz := 0.5%float;
                                    stat_fails := true; chdir_fails := false;
                                    heap := λ _ _, 0%float |}) []))
    = benchmark_modes.
Proof.
  assert (H : (String.length "out" < 256)%nat) by (cbn; lia).
  split; [exact H|].
  exact (proj2 (proj2 (proj2
    (NrInterior_above_range_is_accepted sample_exp unit (λ _ _, tt) sample_solver
       "out" (λ _ _, 0%float) [] H)))).
Defined.

Section SolverClaims.

Variable exp : float → float.
Variable backend : Type.
Variable pardiso_start : Z → Z → backend.


End SolverClaims.



Lemma validation_precedes_allocation_witness :
  let x := run (main sample_exp unit (λ _ _, tt) sample_solver sample_bad_env) [] in
  outcome x = Exit 1 ∧
  argc sample_bad_env = 7 ∧
  (String.length (argv_dirname sample_bad_env) < 256)%nat ∧
  fails_checks sample_bad_env = true ∧
  outcome (run (get_arguments sample_bad_env) []) = Exit 1 ∧
  (1 = 1 ∧ mallocs (trace x) = []) ∧
  (outcome x = Exit 1 ∧ mallocs (trace x) = []) ∧
  ∃ rest, trace x = trace (run (get_arguments sample_bad_env) []) ++ rest ∧
          mallocs (trace (run (get_arguments sample_bad_env) [])) = [] ∧
          rest = [].
Proof.
  cbv zeta.
  pose proof (validation_precedes_allocation sample_exp unit (λ _ _, tt) sample_solver
                sample_bad_env []) as (T1 & T2 & rest & T3 & T4 & T5).
  assert (H1 : outcome (run (main sample_exp unit (λ _ _, tt) sample_solver
                               sample_bad_env) []) = Exit 1) by (by vm_compute).
  assert (H2 : argc sample_bad_env = 7) by reflexivity.
  assert (Hn : (String.length (argv_dirname sample_bad_env) < 256)%nat) by (cbn; lia).
  assert (H3 : fails_checks sample_bad_env = true) by (by vm_compute).
  assert (H4 : outcome (run (get_arguments sample_bad_env) []) = Exit 1) by (by vm_compute).
  split; [exact H1|]. split; [exact H2|]. split; [exact Hn|]. split; [exact H3|].
  split; [exact H4|].
  split; [exact (T1 1 H1)|]. split; [exact (T2 H2 Hn H3)|].
  exists rest. split; [exact T3|]. split; [exact T4|]. exact (T5 1 H4).
Defined.

Lemma initial_fields_at_first_solve_witness :
  outcome (run (get_arguments sample_env) []) = Ret sample_params ∧
  representable sample_params ∧
  head (solves (trace (run (main sample_exp unit (λ _ _, tt) sample_solver sample_env) [])))
    = Some (first_call sample_exp sample_params) ∧
  0 ≤ 1224 < DIM (grid_of sample_params) ∧
  load (sc_u (first_call sample_exp sample_params)) 1224 = Some 1.0%float ∧
  load (sc_f (first_call sample_exp sample_params)) 1224 = Some 0.0%float ∧
  load (sc_res (first_call sample_exp sample_params)) 1224 = Some 0.0%float.
Proof.
  assert (H1 : outcome (run (get_arguments sample_env) []) = Ret sample_params)
    by (by vm_compute).
  assert (H2 : representable sample_params) by (repeat split; by vm_compute).
  assert (H4 : 0 ≤ 1224 < DIM (grid_of sample_params)) by (by vm_compute).
  assert (H3 : head (solves (trace (run (main sample_exp unit (λ _ _, tt) sample_solver
                                          sample_env) [])))
               = Some (first_call sample_exp sample_params))
    by (vm_compute; reflexivity).
  exact (conj H1 (conj H2 (conj H3 (conj H4
    (initial_fields_at_first_solve sample_exp unit (λ _ _, tt) sample_solver
       sample_env [] sample_params (first_call sample_exp sample_params) 1224
       H1 H2 H3 H4))))).
Defined.

(** ** The parity substitution *)

(** C9: at an axis-adjacent point [i] of the radial axis, for both orders and
    an even field, the template coefficient of the ghost point at distance
    [d] across the axis is added into the coefficient of the interior point
    at distance [d]; the row has no entry for the ghost column, every column
    of the row is on the near side of the axis and inside the template, and
    no column occurs twice. *)
Theorem even_parity_folds_ghost_coefficient (coef : Z → Z → float) norder i d :
  norder = 2 ∨ norder = 4 →
  ghost_of norder ≤ i < ghost_of norder + Axis.half_width norder →
  0 ≤ d →
  i - Axis.half_width norder ≤ ghost_of norder - 1 - d →
  let gh := ghost_of norder in
  let row := Axis.radial_row coef Axis.Even norder i in
  Axis.coefficient (Axis.template coef norder i) (gh - 1 - d)
    = Some (coef norder (gh - 1 - d - i)) ∧
  Axis.coefficient row (gh + d)
    = Some (PrimFloat.add (coef norder (gh + d - i)) (coef norder (gh - 1 - d - i))) ∧
  Axis.coefficient row (gh - 1 - d) = None ∧
  Forall (λ e, gh ≤ e.1 ≤ i + Axis.half_width norder) row ∧
  NoDup row.*1.
Proof.
  intros [-> | ->];
    [change (ghost_of 2) with 2; change (Axis.half_width 2) with 1
    |change (ghost_of 4) with 3; change (Axis.half_width 4) with 2];
    intros Hi Hd Hg.
  - assert (i = 2) as -> by lia. assert (d = 0) as -> by lia.
    vm_compute. repeat split; try done.
    + repeat constructor; simpl; intros ?; discriminate.
    + apply (bool_decide_unpack _). by vm_compute.
  - assert (i = 3 ∨ i = 4) as [-> | ->] by lia.
    + assert (d = 0 ∨ d = 1) as [-> | ->] by lia; vm_compute; repeat split; try done;
        try (repeat constructor; simpl; intros ?; discriminate);
        (apply (bool_decide_unpack _); by vm_compute).
    + assert (d = 0) as -> by lia. vm_compute. repeat split; try done.
      * repeat constructor; simpl; intros ?; discriminate.
      * apply (bool_decide_unpack _). by vm_compute.
Qed.

Lemma even_parity_folds_ghost_coefficient_witness :
  (4 = 2 ∨ 4 = 4) ∧
  (ghost_of 4 ≤ 3 < ghost_of 4 + Axis.half_width 4) ∧
  0 ≤ 1 ∧
  3 - Axis.half_width 4 ≤ ghost_of 4 - 1 - 1 ∧
  Axis.coefficient (Axis.radial_row (λ _ o, PrimFloat.of_uint63 (Uint63.of_Z (o + 2))) Axis.Even 4 3) 4
    = Some 3%float.
Proof.
  split; [by right|]. split; [by vm_compute|]. split; [done|]. split; [by vm_compute|].
  pose proof (even_parity_folds_ghost_coefficient
                (λ _ o, PrimFloat.of_uint63 (Uint63.of_Z (o + 2))) 4 3 1) as H.
  destruct H as (_ & H & _); [by right | by vm_compute | done | by vm_compute |].
  exact H.
Defined.

(** A step that is not a number passes the tests of lines 96 and 101, since
    both comparisons are false on it. *)
Lemma nan_step_passes_the_checks :
  fails_checks {| argc := 7; argv_dirname := "out"; argv_norder := 2;
                  argv_NrInterior := 32; argv_NzInterior := 32;
                  argv_dr := PrimFloat.nan; argv_dz := 0.25%float;
                  stat_fails := true; chdir_fails := false;
                  heap := λ _ _, 0%float |} = false.
Proof. by vm_compute. Qed.

(** * Further properties of the driver *)

(** ** The macros of tools.h *)

(** X1: on [int] operands [MIN] and [MAX] are the minimum and the maximum,
    and [ABS] is the absolute value, except at [INT_MIN], where the negation
    overflows and [ABS] returns [INT_MIN] itself. *)
Theorem macros_on_int X Y :
  Int.in_range X →
  Macros.MIN X Y = Z.min X Y ∧
  Macros.MAX X Y = Z.max X Y ∧
  Macros.MIN X Y + Macros.MAX X Y = X + Y ∧
  (X ≠ Int.INT_MIN → Macros.ABS X = Z.abs X ∧ 0 ≤ Macros.ABS X ≤ Int.INT_MAX) ∧
  (X = Int.INT_MIN → Macros.ABS X = Int.INT_MIN).
Proof.
  unfold Int.in_range, Int.INT_MIN, Int.INT_MAX, Macros.MIN, Macros.MAX, Macros.ABS.
  intros HX. rewrite Z.gtb_ltb.
  split; [destruct (Z.ltb_spec X Y); lia|].
  split; [destruct (Z.ltb_spec Y X); lia|].
  split; [destruct (Z.ltb_spec X Y), (Z.ltb_spec Y X); lia|].
  split.
  - intros Hne. destruct (Z.ltb_spec X 0); [|lia].
    rewrite wrap_id by (unfold Int.in_range, Int.INT_MIN, Int.INT_MAX; lia). lia.
  - intros ->. reflexivity.
Qed.

Lemma macros_on_int_witness :
  Int.in_range (-5) ∧
  Macros.MIN (-5) 3 = Z.min (-5) 3 ∧
  Macros.MAX (-5) 3 = Z.max (-5) 3 ∧
  Macros.MIN (-5) 3 + Macros.MAX (-5) 3 = -5 + 3 ∧
  (-5 ≠ Int.INT_MIN → Macros.ABS (-5) = Z.abs (-5) ∧ 0 ≤ Macros.ABS (-5) ≤ Int.INT_MAX) ∧
  (-5 = Int.INT_MIN → Macros.ABS (-5) = Int.INT_MIN).
Proof.
  assert (H : Int.in_range (-5)) by (by vm_compute).
  exact (conj H (macros_on_int (-5) 3 H)).
Defined.

Lemma nan_not_below y : (PrimFloat.nan <? y)%float = false.
Proof. rewrite ltb_spec. reflexivity. Qed.

Lemma not_below_nan x : (x <? PrimFloat.nan)%float = false.
Proof.
  rewrite ltb_spec. change (Prim2SF PrimFloat.nan) with S754_nan.
  unfold SFltb, SFcompare. by destruct (Prim2SF x).
Qed.

(** X2: on [double] operands a NaN in the first position is dropped by [MIN]
    and [MAX] and a NaN in the second position is returned; [ABS] keeps a
    NaN and keeps the sign of the negative zero. *)
Theorem macros_on_double_edge_cases (x y : float) :
  Macros.MIN_double PrimFloat.nan y = y ∧
  Macros.MIN_double x PrimFloat.nan = PrimFloat.nan ∧
  Macros.MAX_double PrimFloat.nan y = y ∧
  Macros.MAX_double x PrimFloat.nan = PrimFloat.nan ∧
  Macros.ABS_double PrimFloat.nan = PrimFloat.nan ∧
  Macros.ABS_double (-0)%float = (-0)%float ∧
  Macros.ABS_double PrimFloat.neg_infinity = PrimFloat.infinity.
Proof.
  unfold Macros.MIN_double, Macros.MAX_double, Macros.ABS_double.
  rewrite !nan_not_below, !not_below_nan. repeat split; by vm_compute.
Qed.

(** ** The linear index *)

(** X3: the linear index and the pair (quotient, remainder) by [NzTotal] are
    inverse to each other between the grid and [0, NrTotal * NzTotal): every
    cell of a field array belongs to exactly one grid point. *)
Theorem IDX_div_mod_round_trip Nr Nz :
  0 < Nz → Nr * Nz ≤ Int.INT_MAX →
  (∀ k, 0 ≤ k < Nr * Nz →
        0 ≤ k / Nz < Nr ∧ 0 ≤ k mod Nz < Nz ∧ IDX Nz (k / Nz) (k mod Nz) = k) ∧
  (∀ i j, 0 ≤ i < Nr → 0 ≤ j < Nz →
        IDX Nz i j / Nz = i ∧ IDX Nz i j mod Nz = j).
Proof.
  intros Hz Hfit. split.
  - intros k Hk.
    pose proof (Z.mod_pos_bound k Nz Hz) as Hm.
    pose proof (Z.div_mod k Nz ltac:(lia)) as Hdm.
    assert (Hd : 0 ≤ k / Nz < Nr).
    { split; [apply Z.div_pos; lia|]. apply Z.div_lt_upper_bound; lia. }
    split; [done|]. split; [done|].
    destruct (IDX_exact Nr Nz (k / Nz) (k mod Nz) Hd Hm Hfit) as [-> _]. lia.
  - intros i j Hi Hj.
    destruct (IDX_exact Nr Nz i j Hi Hj Hfit) as [-> _].
    by apply div_mod_index.
Qed.

Lemma IDX_div_mod_round_trip_witness :
  0 < 35 ∧ 35 * 35 ≤ Int.INT_MAX ∧
  (∀ k, 0 ≤ k < 35 * 35 →
        0 ≤ k / 35 < 35 ∧ 0 ≤ k mod 35 < 35 ∧ IDX 35 (k / 35) (k mod 35) = k) ∧
  (∀ i j, 0 ≤ i < 35 → 0 ≤ j < 35 → IDX 35 i j / 35 = i ∧ IDX 35 i j mod 35 = j).
Proof.
  assert (H1 : 0 < 35) by lia.
  assert (H2 : 35 * 35 ≤ Int.INT_MAX) by (by vm_compute).
  exact (conj H1 (conj H2 (IDX_div_mod_round_trip 35 35 H1 H2))).
Defined.

(** ** Sizes inside the announced ranges *)

(** X4: for parameters inside the announced ranges no step of the size
    computation overflows: the extents lie in [35, 2052] and exceed twice the
    ghost width, [DIM] is at most 4210704, and each block has
    [8 * DIM] bytes, at most 33685632. *)
Theorem documented_sizes p :
  documented p →
  let g := grid_of p in
  2 ≤ ghost g ≤ 3 ∧
  35 ≤ NrTotal g ≤ 2052 ∧ 35 ≤ NzTotal g ≤ 2052 ∧
  2 * ghost g + 1 ≤ NrTotal g ∧ 2 * ghost g + 1 ≤ NzTotal g ∧
  NrTotal g = ghost g + NrInterior p + 1 ∧
  NzTotal g = ghost g + NzInterior p + 1 ∧
  DIM g = NrTotal g * NzTotal g ∧ DIM g ≤ 4210704 ∧
  DIM_size_of (DIM g) = 8 * DIM g ∧ DIM_size_of (DIM g) ≤ 33685632.
Proof.
  intros Hdoc. pose proof (documented_representable p Hdoc) as Hrep.
  cbv zeta. rewrite (grid_of_representable p Hrep). cbn [ghost NrTotal NzTotal DIM].
  destruct Hdoc as (Ho & Hr & Hz & _).
  unfold NRINTERIOR_MIN, NRINTERIOR_MAX, NZINTERIOR_MIN, NZINTERIOR_MAX in *.
  assert (Hg : 2 ≤ ghost_of (norder p) ≤ 3)
    by (destruct Ho as [-> | ->]; unfold ghost_of; simpl; lia).
  set (gh := ghost_of (norder p)) in *.
  assert (HD : (gh + NrInterior p + 1) * (gh + NzInterior p + 1) ≤ 4210704) by nia.
  assert (HD0 : 0 ≤ (gh + NrInterior p + 1) * (gh + NzInterior p + 1)) by nia.
  rewrite DIM_size_exact by (unfold Int.INT_MAX; lia).
  repeat split; lia.
Qed.

Lemma documented_sizes_witness :
  documented sample_params ∧
  2 ≤ ghost (grid_of sample_params) ≤ 3 ∧
  35 ≤ NrTotal (grid_of sample_params) ≤ 2052 ∧
  35 ≤ NzTotal (grid_of sample_params) ≤ 2052 ∧
  DIM (grid_of sample_params) = 1225 ∧
  DIM_size_of (DIM (grid_of sample_params)) = 9800.
Proof.
  assert (H : documented sample_params).
  { unfold documented. split; [by left|]. repeat split; by vm_compute. }
  pose proof (documented_sizes sample_params H) as (A & B & C & _).
  split; [exact H|]. split; [exact A|]. split; [exact B|]. split; [exact C|].
  split; reflexivity.
Defined.

(** ** Edge cases of the fill loop *)


Lemma IDX_origin Nz : IDX Nz 0 0 = 0.
Proof. reflexivity. Qed.

Lemma store_nil k v : store [] k v = None.
Proof. unfold store. rewrite decide_False; [done|]. simpl. lia. Qed.

Section FillEdges.

Variable exp : float → float.


(** On a grid with at least one point the fill loop faults at its first store
    when one of the six blocks is the empty block that a failed [malloc]
    stands for. *)
Lemma fill_faults_on_null_block g p fl :
  0 < NrTotal g → 0 < NzTotal g →
  fld_r fl = [] ∨ fld_z fl = [] ∨ fld_u fl = [] ∨
  fld_f fl = [] ∨ fld_s fl = [] ∨ fld_res fl = [] →
  fill_grids exp g p fl = None.
Proof.
  intros Hr Hz Hnull. unfold fill_grids.
  destruct (Z.to_nat (NrTotal g)) as [|n] eqn:En; [lia|].
  cbn [for_loop]. unfold fill_row.
  destruct (Z.to_nat (NzTotal g)) as [|m] eqn:Em; [lia|].
  cbn [for_loop]. unfold fill_point. rewrite IDX_origin.
  destruct Hnull as [E | [E | [E | [E | [E | E]]]]]; rewrite E, store_nil;
    repeat match goal with
           | |- context [store ?a 0 ?v] => destruct (store a 0 v)
           end; done.
Qed.

End FillEdges.

(** ** The five solves as a chain *)

Section ChainFacts.

Variable backend : Type.
Variable flat_laplacian : backend → solve_call → backend * solve_result.

Abbreviation chain := (calls_from flat_laplacian).

Lemma run_solve p g perm cgs st i :
  run (solve backend flat_laplacian p g perm cgs st) i
    = (Ret (state_after st (flat_laplacian st.1 (call_of p g st (perm, cgs)))), i,
       [EvSolve (call_of p g st (perm, cgs))]).
Proof. reflexivity. Qed.

Lemma chain_successor p g st m ms :
  (chain p g st (m :: ms)).1
    = call_of p g st m
      :: (chain p g (state_after st (flat_laplacian st.1 (call_of p g st m))) ms).1.
Proof. reflexivity. Qed.

(** The trace of the five solves, with the calls of the chain. *)
Lemma benchmark_chain p g st :
  ∃ t, (∀ i, run (benchmark backend flat_laplacian p g st) i
             = (Ret (calls_from flat_laplacian p g st benchmark_modes).2, i, t)) ∧
       solves t = (calls_from flat_laplacian p g st benchmark_modes).1 ∧
       steps t = SSolve <$> benchmark_modes ∧ writes t = [] ∧ mkdirs t = [].
Proof.
  unfold benchmark, benchmark_with, benchmark_modes. rewrite !chain_successor.
  change (solve_with backend (returning backend flat_laplacian))
    with (solve backend flat_laplacian).
  set (c0 := call_of p g st (0, 0)).
  set (st1 := state_after st (flat_laplacian st.1 c0)).
  set (c1 := call_of p g st1 (2, 0)).
  set (st2 := state_after st1 (flat_laplacian st1.1 c1)).
  set (c2 := call_of p g st2 (1, 0)).
  set (st3 := state_after st2 (flat_laplacian st2.1 c2)).
  set (c3 := call_of p g st3 (0, 6)).
  set (st4 := state_after st3 (flat_laplacian st3.1 c3)).
  set (c4 := call_of p g st4 (1, 6)).
  set (st5 := state_after st4 (flat_laplacian st4.1 c4)).
  cbn [calls_from fst snd].
  exists [EvPrintf "ELLSOLVEC: Calling normal solver.\n" []; EvSolve c0;
          EvPrintf "ELLSOLVEC: Solving whilst calculating permutation.\n" []; EvSolve c1;
          EvPrintf "ELLSOLVEC: Solving with permutation.\n" []; EvSolve c2;
          EvPrintf "ELLSOLVEC: Solving with CGS.\n" []; EvSolve c3;
          EvPrintf "ELLSOLVEC: Solving with CGS and permutation.\n" []; EvSolve c4].
  split; [|by repeat split].
  intros i.
  rewrite run_bind. cbn [run printf emit]. cbv beta iota.
  rewrite run_bind, (run_solve p g 0 0 st i).
  fold c0 st1. cbv beta iota.
  rewrite run_bind. cbn [run printf emit]. cbv beta iota.
  rewrite run_bind, (run_solve p g 2 0 st1 i).
  fold c1 st2. cbv beta iota.
  rewrite run_bind. cbn [run printf emit]. cbv beta iota.
  rewrite run_bind, (run_solve p g 1 0 st2 i).
  fold c2 st3. cbv beta iota.
  rewrite run_bind. cbn [run printf emit]. cbv beta iota.
  rewrite run_bind, (run_solve p g 0 6 st3 i).
  fold c3 st4. cbv beta iota.
  rewrite run_bind. cbn [run printf emit]. cbv beta iota.
  rewrite (run_solve p g 1 6 st4 i). fold c4 st5.
  reflexivity.
Qed.

End ChainFacts.

(** ** Sequencing of runs *)

Lemma run_seq {A B} (m : M A) (k : A → M B) i a i' t r i'' t' :
  run m i = (Ret a, i', t) → run (k a) i' = (r, i'', t') →
  run (m ≫= k) i = (r, i'', t ++ t').
Proof. intros Hm Hk. by rewrite run_bind, Hm, Hk. Qed.

Lemma run_stop {A B} (m : M A) (k : A → M B) i i' t :
  run m i = (Fault, i', t) → run (m ≫= k) i = (Fault, i', t).
Proof. intros Hm. by rewrite run_bind, Hm. Qed.

Lemma steps_app t t' : steps (t ++ t') = steps t ++ steps t'.
Proof. apply omap_app. Qed.

Lemma writes_app t t' : writes (t ++ t') = writes t ++ writes t'.
Proof. apply omap_app. Qed.

Lemma mkdirs_app t t' : mkdirs (t ++ t') = mkdirs t ++ mkdirs t'.
Proof. apply omap_app. Qed.

Lemma quiet_solves t : steps t = [] → solves t = [].
Proof. induction t as [|[] t IH]; try done; by apply IH. Qed.

Lemma get_arguments_quiet e i :
  ∃ i' t, steps t = [] ∧ writes t = [] ∧ mkdirs t = [] ∧
    (run (get_arguments e) i = (Exit 1, i', t) ∨
     (∃ p, run (get_arguments e) i = (Ret p, i', t) ∧
           (argc e = 7 → p = params_of_argv e ∧ fails_checks e = false ∧ i' = i) ∧
           (argc e ≠ 7 → p = default_params)) ∨
     (argc e = 7 ∧ ¬ name_fits e ∧ run (get_arguments e) i = (Fault, i', t))).
Proof.
  destruct (Z.eq_dec (argc e) 7) as [Hargc | Hargc].
  - destruct (decide (name_fits e)) as [Hfit | Hfit].
    2: { exists i, []. rewrite (get_arguments_overflow e i Hargc Hfit).
         repeat (split; [reflexivity|]). right; right. done. }
    destruct (get_arguments_argv e i Hargc Hfit) as [(_ & fmt & args & ->) | (Hchk & ->)].
    + exists i, [EvPrintf fmt args]. repeat (split; [reflexivity|]). by left.
    + exists i, []. repeat (split; [reflexivity|]). right; left.
      exists (params_of_argv e). split; [reflexivity|]. split; [done|]. by intros ?.
  - unfold get_arguments.
    replace (argc e =? 7) with false by (symmetry; by apply Z.eqb_neq).
    cbn [negb].
    destruct i as [|c1 [|c2 i]]; cbn -[is_yes];
      try destruct (is_yes _); cbn; eexists _, _;
      (split; [|split; [|split;
         [|first [ left; reflexivity
                 | right; left; eexists; split; [reflexivity|];
                   split; [by intros ?|done] ]]]]);
      reflexivity.
Qed.

Lemma output_directory_quiet e p i :
  ∃ i' t, steps t = [] ∧ writes t = [] ∧
    (run (output_directory e p) i = (Exit 1, i', t) ∨
     run (output_directory e p) i = (Ret tt, i', t)).
Proof.
  unfold output_directory.
  destruct (stat_fails e), (chdir_fails e);
    destruct i as [|c1 [|c2 [|c3 [|c4 i]]]]; cbn -[is_yes];
    repeat match goal with
           | |- context [is_yes ?o] => destruct (is_yes o); cbn -[is_yes]
           end;
    eexists _, _;
    (split; [|split; [|(left; reflexivity) || (right; reflexivity)]]); done.
Qed.

(** The prologue ends in [exit(1)], returns the parameters read by
    [get_arguments], or faults at the copy of a name that does not fit; it
    allocates nothing and writes no file. *)
Lemma prologue_cases e i :
  ∃ i' t, steps t = [] ∧ writes t = [] ∧
    (run (prologue e) i = (Exit 1, i', t) ∨
     (∃ p, run (prologue e) i = (Ret p, i', t) ∧
           (argc e = 7 → p = params_of_argv e ∧ fails_checks e = false) ∧
           (argc e ≠ 7 → p = default_params)) ∨
     (argc e = 7 ∧ ¬ name_fits e ∧ run (prologue e) i = (Fault, i', t))).
Proof.
  unfold prologue. rewrite run_bind.
  destruct (get_arguments_quiet e i)
    as (i1 & t1 & S1 & W1 & _ & [-> | [(p & -> & H7 & Hd) | (Ha & Hn & ->)]]).
  { exists i1, t1. split; [done|]. split; [done|]. by left. }
  2: { exists i1, t1. split; [done|]. split; [done|]. right; right. done. }
  rewrite run_bind.
  destruct (output_directory_quiet e p i1) as (i2 & t2 & S2 & W2 & [-> | ->]).
  - exists i2, (t1 ++ t2). rewrite steps_app, writes_app, S1, S2, W1, W2.
    split; [done|]. split; [done|]. by left.
  - exists i2, (t1 ++ t2 ++ []). rewrite !steps_app, !writes_app, S1, S2, W1, W2.
    split; [done|]. split; [done|]. right; left. exists p. split; [done|].
    split; [|done]. intros H. by destruct (H7 H) as (? & ? & _).
Qed.

Section RunFacts.

Variable exp : float → float.
Variable backend : Type.
Variable pardiso_start : Z → Z → backend.
Variable flat_laplacian : backend → solve_call → backend * solve_result.

Abbreviation driver_compute := (compute exp backend pardiso_start flat_laplacian).
Abbreviation driver := (main exp backend pardiso_start flat_laplacian).

(** Lines 153-293 according to the result of the fill loop. *)
Lemma compute_by_fill e p :
  let g := grid_of p in
  match fill_grids exp g p (blocks e g) with
  | Some fl =>
      let last := (calls_from flat_laplacian p g
                     (pardiso_start (NrInterior p) (NzInterior p), fl) benchmark_modes) in
      ∃ t, (∀ i, run (driver_compute e p) i = (Ret 0, i, t)) ∧
           steps t = protocol g ∧
           solves t = last.1 ∧
           writes t = [("r.asc"%string, fld_r fl); ("z.asc"%string, fld_z fl);
                       ("s.asc"%string, fld_s fl); ("f.asc"%string, fld_f fl);
                       ("u.asc"%string, fld_u last.2.2); ("res.asc"%string, fld_res last.2.2)] ∧
           mkdirs t = []
  | None =>
      ∃ t, (∀ i, run (driver_compute e p) i = (Fault, i, t)) ∧
           steps t = replicate 6 (SMalloc (DIM_size_of (DIM g))) ∧
           writes t = [] ∧ mkdirs t = [] ∧ solves t = []
  end.
Proof.
  cbv zeta. set (g := grid_of p).
  destruct (fill_grids exp g p (blocks e g)) as [fl|] eqn:Efill.
  - destruct (benchmark_chain backend flat_laplacian p g
                (pardiso_start (NrInterior p) (NzInterior p), fl))
      as (tb & Hb & Sb & STb & Wb & Kb).
    set (last := calls_from flat_laplacian p g
                   (pardiso_start (NrInterior p) (NzInterior p), fl) benchmark_modes) in *.
    eexists. split; [|split; [|split; [|split]]].
    + intros i. unfold compute, compute_with. fold g.
      change (benchmark_with backend (returning backend flat_laplacian))
        with (benchmark backend flat_laplacian).
      eapply run_seq; [reflexivity|].
      eapply run_seq; [reflexivity|].
      eapply (run_seq _ _ _ fl i []);
        [change (run (lift (fill_grids exp g p (blocks e g))) i = (Ret fl, i, []));
         by rewrite Efill|].
      do 6 (eapply run_seq; [reflexivity|]).
      eapply run_seq; [apply Hb|].
      reflexivity.
    + rewrite !steps_app, STb. reflexivity.
    + rewrite !solves_app, Sb. reflexivity.
    + rewrite !writes_app, Wb. reflexivity.
    + rewrite !mkdirs_app, Kb. reflexivity.
  - eexists. split; [|split; [|split; [|split]]].
    + intros i. unfold compute, compute_with. fold g.
      eapply run_seq; [reflexivity|].
      eapply run_seq; [reflexivity|].
      eapply (run_stop _ _ _ i []).
      change (run (lift (fill_grids exp g p (blocks e g))) i = (Fault, i, [])).
      by rewrite Efill.
    + reflexivity.
    + reflexivity.
    + reflexivity.
    + reflexivity.
Qed.

(** [main] is the prologue followed by lines 153-293. *)
Lemma main_by_prologue e i :
  run (driver e) i =
    match run (prologue e) i with
    | (Ret p, i1, t1) => let '(r, i2, t2) := run (driver_compute e p) i1 in (r, i2, t1 ++ t2)
    | (Exit c, i1, t1) => (Exit c, i1, t1)
    | (Fault, i1, t1) => (Fault, i1, t1)
    | (Hang, i1, t1) => (Hang, i1, t1)
    end.
Proof.
  rewrite main_unfold. unfold prologue. rewrite run_bind.
  destruct (run (get_arguments e) i) as [[[p|c| |] i1] t1]; [|done|done|done].
  rewrite run_bind.
  destruct (run (output_directory e p) i1) as [[[[]|c| |] i2] t2]; [|done|done|done].
  cbn [run mret M_mret M_ret].
  destruct (run (driver_compute e p) i2) as [[r i3] t3].
  by rewrite app_nil_r, app_assoc.
Qed.

End RunFacts.

(** ** The command line and the prompts *)

Lemma run_read_opt i : run read_opt i = (Ret (head i), after_answer i, []).
Proof. by destruct i as [|c1 [|c2 i]]. Qed.

(** The prompt for the default parameters, for every environment at once. *)
Lemma fallback_run i :
  ∃ t, length t = 7%nat ∧ steps t = [] ∧ mkdirs t = [] ∧ writes t = [] ∧
       ∀ e, argc e ≠ 7 →
            run (get_arguments e) i
            = (if is_yes (head i) then Ret default_params else Exit 1, after_answer i, t).
Proof.
  destruct (is_yes (head i)) eqn:E.
  - eexists. split; [|split; [|split; [|split]]].
    5:{ intros e He. unfold get_arguments.
        replace (argc e =? 7) with false by (symmetry; by apply Z.eqb_neq).
        cbn [negb].
        repeat first [ rewrite run_read_opt | rewrite run_bind | rewrite E
                     | progress cbn [run printf emit mret M_mret M_ret exit]
                     | progress cbv beta iota ]. reflexivity. }
    all: reflexivity.
  - eexists. split; [|split; [|split; [|split]]].
    5:{ intros e He. unfold get_arguments.
        replace (argc e =? 7) with false by (symmetry; by apply Z.eqb_neq).
        cbn [negb].
        repeat first [ rewrite run_read_opt | rewrite run_bind | rewrite E
                     | progress cbn [run printf emit mret M_mret M_ret exit]
                     | progress cbv beta iota ]. reflexivity. }
    all: reflexivity.
Qed.

(** X6: with a number of arguments other than seven the command line is not
    consulted: the driver prints the usage text, consumes the answer and the
    character after it, and continues with the default parameters exactly
    when the answer is [y] or [Y]; any other answer, and the end of the
    input, end the run with [exit(1)]. *)
Theorem interactive_fallback e i :
  argc e ≠ 7 →
  ∃ t, run (get_arguments e) i
         = (if is_yes (head i) then Ret default_params else Exit 1, after_answer i, t) ∧
       length t = 7%nat ∧ steps t = [] ∧
       ∀ e', argc e' ≠ 7 → run (get_arguments e') i = run (get_arguments e) i.
Proof.
  intros Hargc. destruct (fallback_run i) as (t & Hlen & Hst & _ & _ & Hrun).
  exists t. split; [by apply Hrun|]. split; [done|]. split; [done|].
  intros e' H'. by rewrite (Hrun e' H'), (Hrun e Hargc).
Qed.

Lemma interactive_fallback_witness :
  argc sample_prompt_env ≠ 7 ∧
  outcome (run (get_arguments sample_prompt_env) answer_yes) = Ret default_params ∧
  outcome (run (get_arguments sample_prompt_env) answer_no) = Exit 1 ∧
  outcome (run (get_arguments sample_prompt_env) []) = Exit 1 ∧
  ∃ t, run (get_arguments sample_prompt_env) answer_yes
         = (if is_yes (head answer_yes) then Ret default_params else Exit 1,
            after_answer answer_yes, t) ∧
       length t = 7%nat ∧ steps t = [] ∧
       ∀ e', argc e' ≠ 7 →
             run (get_arguments e') answer_yes
             = run (get_arguments sample_prompt_env) answer_yes.
Proof.
  assert (H : argc sample_prompt_env ≠ 7) by (by vm_compute).
  split; [exact H|]. split; [reflexivity|]. split; [reflexivity|]. split; [reflexivity|].
  exact (interactive_fallback sample_prompt_env answer_yes H).
Defined.

(** X7: a command line of seven arguments that gets through the tests of
    lines 73-105 is taken over unchanged, without a message and without
    reading the input; its order is 2 or 4, [NrInterior] is at least 32,
    [NzInterior] lies in [32, 2048], neither step is below [DR_MIN] or above
    [DR_MAX], the ghost width is 2 or 3, and the axial extent is
    [ghost + NzInterior + 1], between 35 and 2052. *)
Theorem accepted_command_line e i p i' t :
  argc e = 7 →
  run (get_arguments e) i = (Ret p, i', t) →
  p = params_of_argv e ∧ i' = i ∧ t = [] ∧
  (norder p = 2 ∨ norder p = 4) ∧
  NRINTERIOR_MIN ≤ NrInterior p ∧
  NZINTERIOR_MIN ≤ NzInterior p ≤ NZINTERIOR_MAX ∧
  (dr p <? DR_MIN)%float = false ∧ (DR_MAX <? dr p)%float = false ∧
  (dz p <? DZ_MIN)%float = false ∧ (DZ_MAX <? dz p)%float = false ∧
  2 ≤ ghost (grid_of p) ≤ 3 ∧
  NzTotal (grid_of p) = ghost (grid_of p) + NzInterior p + 1 ∧
  35 ≤ NzTotal (grid_of p) ≤ 2052.
Proof.
  intros Hargc Hrun.
  destruct (decide (name_fits e)) as [Hfit | Hfit];
    [|by rewrite (get_arguments_overflow e i Hargc Hfit) in Hrun].
  destruct (get_arguments_argv e i Hargc Hfit) as [(_ & fmt & args & Hx) | (Hchk & Hga)];
    [congruence|].
  rewrite Hga in Hrun. injection Hrun as <- <- <-.
  split; [done|]. split; [done|]. split; [done|].
  unfold fails_checks in Hchk.
  repeat (apply orb_false_iff in Hchk; destruct Hchk as [Hchk ?]).
  repeat match goal with
         | H : (_ || _) = false |- _ => apply orb_false_iff in H; destruct H
         end.
  apply andb_false_iff in Hchk. rewrite !negb_false_iff, !Z.eqb_eq in Hchk.
  unfold NRINTERIOR_MIN, NRINTERIOR_MAX, NZINTERIOR_MIN, NZINTERIOR_MAX in *.
  cbn [params_of_argv norder NrInterior NzInterior dr dz].
  assert (Hg : 2 ≤ ghost_of (argv_norder e) ≤ 3)
    by (destruct Hchk as [-> | ->]; unfold ghost_of; simpl; lia).
  assert (Hz : 32 ≤ argv_NzInterior e ≤ 2048) by lia.
  unfold grid_of. cbn [ghost NzTotal params_of_argv norder NzInterior].
  unfold Int.add.
  rewrite (wrap_id (ghost_of _ + _))
    by (unfold Int.in_range, Int.INT_MIN, Int.INT_MAX; lia).
  rewrite wrap_id by (unfold Int.in_range, Int.INT_MIN, Int.INT_MAX; lia).
  repeat split; try done; lia.
Qed.

Lemma accepted_command_line_witness :
  argc sample_env = 7 ∧
  run (get_arguments sample_env) answer_no = (Ret sample_params, answer_no, []) ∧
  2 ≤ ghost (grid_of sample_params) ≤ 3 ∧
  35 ≤ NzTotal (grid_of sample_params) ≤ 2052.
Proof.
  assert (H1 : argc sample_env = 7) by reflexivity.
  assert (H2 : run (get_arguments sample_env) answer_no = (Ret sample_params, answer_no, []))
    by (by vm_compute).
  pose proof (accepted_command_line sample_env answer_no sample_params answer_no [] H1 H2)
    as (_ & _ & _ & _ & _ & _ & _ & _ & _ & _ & A & _ & B).
  exact (conj H1 (conj H2 (conj A B))).
Defined.

(** X8: the directory is created exactly when [stat] fails, and never when
    it exists; each of the two prompts (existing directory, failed [chdir])
    consumes two characters and ends the run with [exit(1)] unless the answer
    is [y] or [Y]; nothing is allocated or written to a file meanwhile. *)
Theorem output_directory_behaviour e p i :
  let i1 := if stat_fails e then i else after_answer i in
  let i2 := if chdir_fails e then after_answer i1 else i1 in
  let ok1 := stat_fails e || is_yes (head i) in
  let ok2 := negb (chdir_fails e) || is_yes (head i1) in
  ∃ t, run (output_directory e p) i
         = (if ok1 && ok2 then Ret tt else Exit 1, if ok1 then i2 else i1, t) ∧
       mkdirs t = (if stat_fails e then [dirname p] else []) ∧
       steps t = [] ∧ writes t = [].
Proof.
  cbv zeta. unfold output_directory.
  destruct (stat_fails e) eqn:Es, (chdir_fails e) eqn:Ec; cbn [orb negb andb].
  - destruct (is_yes (head i)) eqn:E1; cbn [orb negb andb];
      (eexists; split;
       [repeat first [ rewrite run_read_opt | rewrite run_bind | rewrite E1
                     | progress cbn [run printf emit mret M_mret M_ret exit]
                     | progress cbv beta iota ]; reflexivity
       |by repeat split]).
  - eexists. split;
      [repeat first [ rewrite run_bind
                    | progress cbn [run printf emit mret M_mret M_ret exit]
                    | progress cbv beta iota ]; reflexivity
      |by repeat split].
  - destruct (is_yes (head i)) eqn:E1, (is_yes (head (after_answer i))) eqn:E2;
      cbn [orb negb andb];
      (eexists; split;
       [repeat first [ rewrite run_read_opt | rewrite run_bind | rewrite E1 | rewrite E2
                     | progress cbn [run printf emit mret M_mret M_ret exit]
                     | progress cbv beta iota ]; reflexivity
       |by repeat split]).
  - destruct (is_yes (head i)) eqn:E1; cbn [orb negb andb];
      (eexists; split;
       [repeat first [ rewrite run_read_opt | rewrite run_bind | rewrite E1
                     | progress cbn [run printf emit mret M_mret M_ret exit]
                     | progress cbv beta iota ]; reflexivity
       |by repeat split]).
Qed.

(** ** Whole runs *)


Lemma blocks_length e p :
  representable p →
  fields_length (Z.to_nat (DIM (grid_of p))) (blocks e (grid_of p)).
Proof.
  intros Hrep. destruct (representable_grid p Hrep) as (_ & Hr & Hz & Hfit & Hdim).
  set (g := grid_of p) in *.
  assert (HD : 0 ≤ DIM g ≤ Int.INT_MAX) by nia.
  unfold blocks, fields_length.
  cbv zeta beta. cbn [fld_r fld_z fld_u fld_f fld_s fld_res].
  rewrite (DIM_size_exact _ HD).
  rewrite !decide_True by (unfold PTRDIFF_MAX, Int.INT_MAX in *; lia).
  replace (8 * DIM g / 8) with (DIM g)
    by (symmetry; rewrite Z.mul_comm; apply Z.div_mul; lia).
  by rewrite !length_fmap, !length_seqZ.
Qed.

Lemma negative_size_is_refused n :
  Int.INT_MIN ≤ n < 0 → PTRDIFF_MAX < DIM_size_of n.
Proof.
  unfold Int.INT_MIN, PTRDIFF_MAX, DIM_size_of, size_of_int. intros Hn.
  replace (n mod 18446744073709551616) with (n + 18446744073709551616)
    by (apply Z.mod_unique with (-1); lia).
  replace ((n + 18446744073709551616) * 8 mod 18446744073709551616)
    with (8 * n + 18446744073709551616)
    by (apply Z.mod_unique with 7; lia).
  lia.
Qed.

Lemma default_params_representable : representable default_params.
Proof. repeat split; by vm_compute. Qed.

Section WholeRuns.

Variable exp : float → float.
Variable backend : Type.
Variable pardiso_start : Z → Z → backend.
Variable flat_laplacian : backend → solve_call → backend * solve_result.

Abbreviation driver_compute := (compute exp backend pardiso_start flat_laplacian).
Abbreviation driver := (main exp backend pardiso_start flat_laplacian).

Lemma fill_blocks e p :
  representable p →
  fill_grids exp (grid_of p) p (blocks e (grid_of p)) = Some (filled exp (grid_of p) p).
Proof.
  intros Hrep. destruct (representable_grid p Hrep) as (_ & Hr & Hz & Hfit & Hdim).
  apply fill_grids_filled; try lia; try done. by apply blocks_length.
Qed.

(** Lines 153-293 depend on the environment through the result of the fill
    loop only. *)
Lemma compute_congr e e' p i :
  fill_grids exp (grid_of p) p (blocks e (grid_of p))
    = fill_grids exp (grid_of p) p (blocks e' (grid_of p)) →
  run (driver_compute e p) i = run (driver_compute e' p) i.
Proof.
  intros Hfill. unfold compute, compute_with.
  rewrite !(run_bind (print_parameters p (grid_of p))).
  destruct (run (print_parameters p (grid_of p)) i) as [[[[]|c| |] i1] t1];
    [|done|done|done].
  rewrite !(run_bind (allocate _ (grid_of p))), !run_allocate. cbv beta iota.
  rewrite !(run_bind (lift _)), Hfill. reflexivity.
Qed.

(** X9: with a directory name that fits in [dirname] and a solver whose
    calls return, the steps of a run are determined by the way it ends. A
    run that returns does so with 0, after six blocks of
    [DIM * sizeof(double)] bytes were requested, [r.asc] and [z.asc] written,
    the session started, [s.asc] and [f.asc] written, the five solves made,
    [u.asc] and [res.asc] written, the session stopped and six blocks freed,
    in this order. A run that ends in [exit] has status 1 and has done none
    of this. A run that faults has requested the six blocks and done nothing
    else. Every run ends in one of these ways. *)
Theorem steps_by_outcome e i :
  (argc e = 7 → (String.length (argv_dirname e) < 256)%nat) →
  match outcome (run (driver e) i) with
  | Ret v =>
      v = 0 ∧ ∃ p, outcome (run (prologue e) i) = Ret p ∧
                   steps (trace (run (driver e) i)) = protocol (grid_of p)
  | Exit c =>
      c = 1 ∧ steps (trace (run (driver e) i)) = [] ∧ writes (trace (run (driver e) i)) = []
  | Fault =>
      ∃ p, outcome (run (prologue e) i) = Ret p ∧
           steps (trace (run (driver e) i))
             = replicate 6 (SMalloc (DIM_size_of (DIM (grid_of p)))) ∧
           writes (trace (run (driver e) i)) = []
  | Hang => False
  end.
Proof.
  intros Hfit. rewrite main_by_prologue.
  destruct (prologue_cases e i)
    as (i1 & t1 & S1 & W1 & [-> | [(p & -> & _) | (Ha & Hn & _)]]).
  { by repeat split. }
  2: { by destruct (Hn (Hfit Ha)). }
  pose proof (compute_by_fill exp backend pardiso_start flat_laplacian e p) as Hc.
  cbv zeta in Hc.
  destruct (fill_grids exp (grid_of p) p (blocks e (grid_of p))) as [fl|].
  - destruct Hc as (t & Hrun & Hst & _). rewrite Hrun.
    unfold outcome, trace. cbn [fst snd]. split; [done|]. exists p. split; [done|].
    by rewrite steps_app, S1, Hst.
  - destruct Hc as (t & Hrun & Hst & Hw & _ & _). rewrite Hrun.
    unfold outcome, trace. cbn [fst snd]. exists p. split; [done|].
    by rewrite steps_app, writes_app, S1, W1, Hst, Hw.
Qed.


(** X11: the contents of the blocks handed out by [malloc] have no influence
    on a run whose grid has at most [INT_MAX] points: outcome, remaining
    input and trace, with the data of every file and of every solver call, are
    the same for any other contents. *)
Theorem uninitialised_memory_is_not_observed h e i :
  (argc e = 7 → representable (params_of_argv e)) →
  run (driver (with_heap h e)) i = run (driver e) i.
Proof.
  intros Hrep. rewrite !main_by_prologue.
  change (run (prologue (with_heap h e)) i) with (run (prologue e) i).
  destruct (prologue_cases e i)
    as (i1 & t1 & _ & _ & [-> | [(p & -> & H7 & Hd) | (_ & _ & ->)]]); [done| |done].
  assert (Hp : representable p).
  { destruct (Z.eq_dec (argc e) 7) as [Ha | Ha].
    - destruct (H7 Ha) as [-> _]. by apply Hrep.
    - rewrite (Hd Ha). apply default_params_representable. }
  rewrite (compute_congr (with_heap h e) e p i1); [done|].
  by rewrite !fill_blocks.
Qed.

End WholeRuns.

Lemma steps_by_outcome_witness :
  (argc sample_env = 7 → (String.length (argv_dirname sample_env) < 256)%nat) ∧
  outcome (run (main sample_exp unit (λ _ _, tt) sample_solver sample_env) []) = Ret 0 ∧
  ∃ p, outcome (run (prologue sample_env) []) = Ret p ∧
       steps (trace (run (main sample_exp unit (λ _ _, tt) sample_solver sample_env) []))
         = protocol (grid_of p).
Proof.
  assert (H : argc sample_env = 7 → (String.length (argv_dirname sample_env) < 256)%nat)
    by (intros _; cbn; lia).
  assert (H0 : outcome (run (main sample_exp unit (λ _ _, tt) sample_solver sample_env) [])
               = Ret 0) by (vm_compute; reflexivity).
  pose proof (steps_by_outcome sample_exp unit (λ _ _, tt) sample_solver sample_env [] H)
    as T.
  rewrite H0 in T.
  exact (conj H (conj H0 (proj2 T))).
Defined.


Lemma uninitialised_memory_is_not_observed_witness :
  (argc sample_env = 7 → representable (params_of_argv sample_env)) ∧
  run (main sample_exp unit (λ _ _, tt) sample_solver
         (with_heap (λ _ _, 1%float) sample_env)) answer_no
    = run (main sample_exp unit (λ _ _, tt) sample_solver sample_env) answer_no.
Proof.
  assert (H : argc sample_env = 7 → representable (params_of_argv sample_env))
    by (intros _; repeat split; by vm_compute).
  exact (conj H (uninitialised_memory_is_not_observed sample_exp unit (λ _ _, tt)
                   sample_solver (λ _ _, 1%float) sample_env answer_no H)).
Defined.

(** The tests of lines 73-105, for every input at once. *)
Lemma get_arguments_batch e :
  argc e = 7 →
  ∃ r t, steps t = [] ∧ writes t = [] ∧ ∀ i, run (get_arguments e) i = (r, i, t).
Proof.
  intros Hargc. unfold get_arguments, strcpy. rewrite Hargc.
  change (negb (7 =? 7)) with false. cbv iota.
  repeat match goal with
         | |- context [if ?b then _ else _] => destruct b
         end;
    (eexists _, _; split; [|split; [|intros i; reflexivity]]; reflexivity).
Qed.

Section WholeRunsMore.

Variable exp : float → float.
Variable backend : Type.
Variable pardiso_start : Z → Z → backend.
Variable flat_laplacian : backend → solve_call → backend * solve_result.

Abbreviation driver := (main exp backend pardiso_start flat_laplacian).

(** X12: with seven arguments, a directory that does not exist yet and a
    successful [chdir] the driver never reads its standard input: outcome
    and trace are the same for every input, and the input is left as it
    was. *)
Theorem batch_run_reads_no_input e :
  argc e = 7 → stat_fails e = true → chdir_fails e = false →
  ∃ r t, ∀ i, run (main exp backend pardiso_start flat_laplacian e) i = (r, i, t).
Proof.
  intros Hargc Hs Hc.
  destruct (get_arguments_batch e Hargc) as (r0 & t0 & _ & _ & H0).
  destruct r0 as [p|c| |].
  - pose proof (compute_by_fill exp backend pardiso_start flat_laplacian e p) as Hcomp.
    cbv zeta in Hcomp.
    assert (Hdir : ∀ i, run (output_directory e p) i = (Ret tt, i, [EvMkdir (dirname p)]))
      by (intros i; unfold output_directory; by rewrite Hs, Hc).
    destruct (fill_grids exp (grid_of p) p (blocks e (grid_of p))) as [fl|].
    + destruct Hcomp as (t & Hrun & _).
      exists (Ret 0), (t0 ++ [EvMkdir (dirname p)] ++ t). intros i.
      by rewrite main_unfold, H0, Hdir, Hrun.
    + destruct Hcomp as (t & Hrun & _).
      exists Fault, (t0 ++ [EvMkdir (dirname p)] ++ t). intros i.
      by rewrite main_unfold, H0, Hdir, Hrun.
  - exists (Exit c), t0. intros i. by rewrite main_unfold, H0.
  - exists Fault, t0. intros i. by rewrite main_unfold, H0.
  - exists Hang, t0. intros i. by rewrite main_unfold, H0.
Qed.


(** X14: when the number of points wraps around to a negative [DIM] on a grid
    with positive extents, each of the six requests exceeds [PTRDIFF_MAX],
    [malloc] returns no block, and the run faults at the first store of the
    fill loop: no file is written, PARDISO is not started and no solve is
    made. *)
Theorem negative_DIM_faults e i p :
  outcome (run (prologue e) i) = Ret p →
  0 < NrTotal (grid_of p) → 0 < NzTotal (grid_of p) → DIM (grid_of p) < 0 →
  outcome (run (driver e) i) = Fault ∧
  PTRDIFF_MAX < DIM_size_of (DIM (grid_of p)) ∧
  steps (trace (run (driver e) i))
    = replicate 6 (SMalloc (DIM_size_of (DIM (grid_of p)))) ∧
  writes (trace (run (driver e) i)) = [] ∧
  solves (trace (run (driver e) i)) = [].
Proof.
  intros Hpro Hr Hz HD.
  assert (Hsize : PTRDIFF_MAX < DIM_size_of (DIM (grid_of p))).
  { apply negative_size_is_refused. split; [|done].
    apply (wrap_in_range (NrTotal (grid_of p) * NzTotal (grid_of p))). }
  rewrite main_by_prologue.
  destruct (prologue_cases e i)
    as (i1 & t1 & S1 & W1 & [E | [(p' & E & _) | (_ & _ & E)]]);
    rewrite E in Hpro |- *; [done| |done].
  injection Hpro as ->.
  pose proof (compute_by_fill exp backend pardiso_start flat_laplacian e p) as Hcomp.
  cbv zeta in Hcomp.
  rewrite (fill_faults_on_null_block exp (grid_of p) p (blocks e (grid_of p)) Hr Hz)
    in Hcomp.
  - destruct Hcomp as (t & Hrun & Hst & Hw & _ & Hsol). rewrite Hrun.
    unfold outcome, trace. cbn [fst snd]. split; [done|]. split; [done|].
    by rewrite steps_app, writes_app, solves_app, S1, W1, Hst, Hw, Hsol,
      (quiet_solves t1 S1).
  - left. unfold blocks. cbn [fld_r]. by rewrite decide_False by lia.
Qed.


End WholeRunsMore.

Lemma batch_run_reads_no_input_witness :
  argc sample_env = 7 ∧ stat_fails sample_env = true ∧ chdir_fails sample_env = false ∧
  ∃ r t, ∀ i, run (main sample_exp unit (λ _ _, tt) sample_solver sample_env) i
              = (r, i, t).
Proof.
  exact (conj eq_refl (conj eq_refl (conj eq_refl
    (batch_run_reads_no_input sample_exp unit (λ _ _, tt) sample_solver sample_env
       eq_refl eq_refl eq_refl)))).
Defined.


Lemma negative_DIM_faults_witness :
  outcome (run (prologue sample_huge_env) []) = Ret sample_huge_params ∧
  0 < NrTotal (grid_of sample_huge_params) ∧
  0 < NzTotal (grid_of sample_huge_params) ∧
  DIM (grid_of sample_huge_params) < 0 ∧
  outcome (run (main sample_exp unit (λ _ _, tt) sample_solver sample_huge_env) []) = Fault.
Proof.
  assert (H1 : outcome (run (prologue sample_huge_env) []) = Ret sample_huge_params)
    by (by vm_compute).
  assert (H2 : 0 < NrTotal (grid_of sample_huge_params)) by (by vm_compute).
  assert (H3 : 0 < NzTotal (grid_of sample_huge_params)) by (by vm_compute).
  assert (H4 : DIM (grid_of sample_huge_params) < 0) by (by vm_compute).
  exact (conj H1 (conj H2 (conj H3 (conj H4
    (proj1 (negative_DIM_faults sample_exp unit (λ _ _, tt) sample_solver
              sample_huge_env [] sample_huge_params H1 H2 H3 H4)))))).
Defined.


(** ** Doubles: NaN steps and the symmetry of the grid *)

Lemma mul_nan_r x : (x * PrimFloat.nan)%float = PrimFloat.nan.
Proof.
  apply Prim2SF_inj. rewrite mul_spec.
  change (Prim2SF PrimFloat.nan) with S754_nan.
  unfold SF64mul, SFmul. by destruct (Prim2SF x).
Qed.

Lemma binary_round_aux_opp s m e l :
  binary_round_aux prec emax (negb s) m e l
  = SFopp (binary_round_aux prec emax s m e l).
Proof.
  unfold binary_round_aux.
  destruct (shr_fexp prec emax m e l) as [mrs' e'].
  destruct (shr_fexp prec emax _ e' loc_Exact) as [mrs'' e''].
  destruct (shr_m mrs''); [done| |done].
  by destruct (e'' <=? emax - prec).
Qed.

Lemma mul_opp_l x y : (- x * y)%float = (- (x * y))%float.
Proof.
  apply Prim2SF_inj. rewrite mul_spec, !opp_spec, mul_spec.
  unfold SF64mul.
  destruct (Prim2SF x) as [sx|sx| |sx mx ex], (Prim2SF y) as [sy|sy| |sy my ey];
    cbn [SFmul SFopp]; try reflexivity;
    try (by destruct sx, sy).
  rewrite <- binary_round_aux_opp. by destruct sx, sy.
Qed.

(** The coordinates of the ghost cell and of the interior cell at the same
    distance from the axis. *)
Lemma coordinate_mirror gh d step :
  2 ≤ gh ≤ 3 → 0 ≤ d < gh →
  coordinate gh (gh - 1 - d) step = (- coordinate gh (gh + d) step)%float.
Proof.
  intros Hg Hd. unfold coordinate.
  assert (Hcases : (gh = 2 ∧ (d = 0 ∨ d = 1)) ∨ (gh = 3 ∧ (d = 0 ∨ d = 1 ∨ d = 2)))
    by lia.
  destruct Hcases as [[-> [-> | ->]] | [-> [-> | [-> | ->]]]];
    rewrite <- mul_opp_l; reflexivity.
Qed.

Section DoubleFacts.

Variable exp : float → float.

(** X16: a radial step that is not a number passes the two tests of line 96,
    so that a command line whose directory name fits in [dirname] and whose
    other values are in range is accepted; the fill loop then stores a NaN
    as the [r] coordinate of every grid point. *)
Theorem nan_step_is_accepted e i k :
  argc e = 7 →
  (String.length (argv_dirname e) < 256)%nat →
  argv_norder e = 2 ∨ argv_norder e = 4 →
  NRINTERIOR_MIN ≤ argv_NrInterior e ≤ NRINTERIOR_MAX →
  NZINTERIOR_MIN ≤ argv_NzInterior e ≤ NZINTERIOR_MAX →
  argv_dr e = PrimFloat.nan →
  (argv_dz e <? DZ_MIN)%float = false → (DZ_MAX <? argv_dz e)%float = false →
  0 ≤ k < DIM (grid_of (params_of_argv e)) →
  let p := params_of_argv e in
  run (get_arguments e) i = (Ret p, i, []) ∧
  ∃ fl, fill_grids exp (grid_of p) p (blocks e (grid_of p)) = Some fl ∧
        load (fld_r fl) k = Some PrimFloat.nan.
Proof.
  intros Hargc Hfit Ho Hr Hz Hnan Hz1 Hz2 Hk p.
  assert (Hchk : fails_checks e = false).
  { unfold fails_checks, NRINTERIOR_MIN, NRINTERIOR_MAX, NZINTERIOR_MIN,
      NZINTERIOR_MAX in *.
    rewrite Hnan, Hz1, Hz2.
    change (PrimFloat.nan <? DR_MIN)%float with false.
    change (DR_MAX <? PrimFloat.nan)%float with false.
    replace (argv_NrInterior e <? 32) with false by (symmetry; apply Z.ltb_ge; lia).
    replace (argv_NzInterior e <? 32) with false by (symmetry; apply Z.ltb_ge; lia).
    replace (argv_NzInterior e >? 2048) with false
      by (symmetry; rewrite Z.gtb_ltb; apply Z.ltb_ge; lia).
    by destruct Ho as [-> | ->]. }
  split.
  { destruct (get_arguments_argv e i Hargc Hfit) as [(Hc & _) | (_ & Hga)];
      [congruence|done]. }
  assert (Hrep : representable p).
  { apply documented_representable. unfold documented, p.
    cbn [params_of_argv norder NrInterior NzInterior dr dz].
    rewrite Hnan. repeat split; try tauto; done. }
  exists (filled exp (grid_of p) p). split; [by apply fill_blocks|].
  unfold filled. cbn [fld_r]. rewrite load_fmap_seqZ by done.
  unfold cell_r, coordinate, p. cbn [params_of_argv dr]. rewrite Hnan.
  by rewrite mul_nan_r.
Qed.

(** X17: the grid is symmetric about the axis: for each of the [ghost] cells
    below the axis, the [r] coordinate stored at radial index
    [ghost - 1 - d] is the negation of the one stored at [ghost + d], and
    likewise for [z] in the axial direction, whatever the steps are. *)
Theorem ghost_cells_mirror_the_interior p fl0 d i j :
  representable p →
  fields_length (Z.to_nat (DIM (grid_of p))) fl0 →
  norder p = 2 ∨ norder p = 4 →
  0 ≤ d < ghost (grid_of p) →
  ghost (grid_of p) + d < NrTotal (grid_of p) →
  ghost (grid_of p) + d < NzTotal (grid_of p) →
  0 ≤ i < NrTotal (grid_of p) →
  0 ≤ j < NzTotal (grid_of p) →
  let g := grid_of p in
  ∃ fl x y, fill_grids exp g p fl0 = Some fl ∧
    load (fld_r fl) (IDX (NzTotal g) (ghost g + d) j) = Some x ∧
    load (fld_r fl) (IDX (NzTotal g) (ghost g - 1 - d) j) = Some (- x)%float ∧
    load (fld_z fl) (IDX (NzTotal g) i (ghost g + d)) = Some y ∧
    load (fld_z fl) (IDX (NzTotal g) i (ghost g - 1 - d)) = Some (- y)%float.
Proof.
  intros Hrep Hlen Ho Hd Hdr Hdz Hi Hj.
  destruct (representable_grid p Hrep) as (_ & Hr & Hz & Hfit & Hdim).
  assert (Hgh : 2 ≤ ghost (grid_of p) ≤ 3).
  { unfold grid_of. cbn [ghost]. destruct Ho as [-> | ->]; unfold ghost_of; simpl; lia. }
  cbv zeta. set (g := grid_of p) in *.
  exists (filled exp g p), (coordinate (ghost g) (ghost g + d) (dr p)),
    (coordinate (ghost g) (ghost g + d) (dz p)).
  split; [apply fill_grids_filled; (lia || done)|].
  assert (Hcell : ∀ a b, 0 ≤ a < NrTotal g → 0 ≤ b < NzTotal g →
            load (fld_r (filled exp g p)) (IDX (NzTotal g) a b)
              = Some (coordinate (ghost g) a (dr p)) ∧
            load (fld_z (filled exp g p)) (IDX (NzTotal g) a b)
              = Some (coordinate (ghost g) b (dz p))).
  { intros a b Ha Hb.
    destruct (IDX_exact _ _ _ _ Ha Hb Hfit) as [-> Hk].
    destruct (div_mod_index (NzTotal g) a b Hb) as [Hdiv Hmod].
    unfold filled. cbn [fld_r fld_z].
    rewrite !load_fmap_seqZ by lia. unfold cell_r, cell_z. by rewrite Hdiv, Hmod. }
  destruct (Hcell (ghost g + d) j ltac:(lia) Hj) as [-> _].
  destruct (Hcell (ghost g - 1 - d) j ltac:(lia) Hj) as [-> _].
  destruct (Hcell i (ghost g + d) Hi ltac:(lia)) as [_ ->].
  destruct (Hcell i (ghost g - 1 - d) Hi ltac:(lia)) as [_ ->].
  rewrite !coordinate_mirror by done. done.
Qed.

End DoubleFacts.

Lemma nan_step_is_accepted_witness :
  argc sample_nan_env = 7 ∧
  (String.length (argv_dirname sample_nan_env) < 256)%nat ∧
  (argv_norder sample_nan_env = 2 ∨ argv_norder sample_nan_env = 4) ∧
  NRINTERIOR_MIN ≤ argv_NrInterior sample_nan_env ≤ NRINTERIOR_MAX ∧
  NZINTERIOR_MIN ≤ argv_NzInterior sample_nan_env ≤ NZINTERIOR_MAX ∧
  argv_dr sample_nan_env = PrimFloat.nan ∧
  (argv_dz sample_nan_env <? DZ_MIN)%float = false ∧
  (DZ_MAX <? argv_dz sample_nan_env)%float = false ∧
  0 ≤ 182 < DIM (grid_of (params_of_argv sample_nan_env)) ∧
  run (get_arguments sample_nan_env) [] = (Ret (params_of_argv sample_nan_env), [], []) ∧
  ∃ fl, fill_grids sample_exp (grid_of (params_of_argv sample_nan_env))
          (params_of_argv sample_nan_env)
          (blocks sample_nan_env (grid_of (params_of_argv sample_nan_env))) = Some fl ∧
        load (fld_r fl) 182 = Some PrimFloat.nan.
Proof.
  assert (H1 : argc sample_nan_env = 7) by reflexivity.
  assert (Hn : (String.length (argv_dirname sample_nan_env) < 256)%nat) by (cbn; lia).
  assert (H2 : argv_norder sample_nan_env = 2 ∨ argv_norder sample_nan_env = 4)
    by (by left).
  assert (H3 : NRINTERIOR_MIN ≤ argv_NrInterior sample_nan_env ≤ NRINTERIOR_MAX)
    by (by vm_compute).
  assert (H4 : NZINTERIOR_MIN ≤ argv_NzInterior sample_nan_env ≤ NZINTERIOR_MAX)
    by (by vm_compute).
  assert (H5 : argv_dr sample_nan_env = PrimFloat.nan) by reflexivity.
  assert (H6 : (argv_dz sample_nan_env <? DZ_MIN)%float = false) by (by vm_compute).
  assert (H7 : (DZ_MAX <? argv_dz sample_nan_env)%float = false) by (by vm_compute).
  assert (H8 : 0 ≤ 182 < DIM (grid_of (params_of_argv sample_nan_env)))
    by (by vm_compute).
  exact (conj H1 (conj Hn (conj H2 (conj H3 (conj H4 (conj H5 (conj H6 (conj H7 (conj H8
    (nan_step_is_accepted sample_exp sample_nan_env [] 182
       H1 Hn H2 H3 H4 H5 H6 H7 H8)))))))))).
Defined.

Lemma ghost_cells_mirror_the_interior_witness :
  representable sample_params ∧
  fields_length (Z.to_nat (DIM (grid_of sample_params))) sample_blocks ∧
  (norder sample_params = 2 ∨ norder sample_params = 4) ∧
  0 ≤ 1 < ghost (grid_of sample_params) ∧
  ghost (grid_of sample_params) + 1 < NrTotal (grid_of sample_params) ∧
  ghost (grid_of sample_params) + 1 < NzTotal (grid_of sample_params) ∧
  0 ≤ 5 < NrTotal (grid_of sample_params) ∧
  0 ≤ 7 < NzTotal (grid_of sample_params) ∧
  ∃ fl x y,
    fill_grids sample_exp (grid_of sample_params) sample_params sample_blocks = Some fl ∧
    load (fld_r fl) (IDX 35 3 7) = Some x ∧
    load (fld_r fl) (IDX 35 0 7) = Some (- x)%float ∧
    load (fld_z fl) (IDX 35 5 3) = Some y ∧
    load (fld_z fl) (IDX 35 5 0) = Some (- y)%float.
Proof.
  assert (H1 : representable sample_params) by (repeat split; by vm_compute).
  assert (H2 : fields_length (Z.to_nat (DIM (grid_of sample_params))) sample_blocks)
    by (repeat split; by vm_compute).
  assert (H3 : norder sample_params = 2 ∨ norder sample_params = 4) by (by left).
  assert (H4 : 0 ≤ 1 < ghost (grid_of sample_params)) by (by vm_compute).
  assert (H5 : ghost (grid_of sample_params) + 1 < NrTotal (grid_of sample_params))
    by (by vm_compute).
  assert (H6 : ghost (grid_of sample_params) + 1 < NzTotal (grid_of sample_params))
    by (by vm_compute).
  assert (H7 : 0 ≤ 5 < NrTotal (grid_of sample_params)) by (by vm_compute).
  assert (H8 : 0 ≤ 7 < NzTotal (grid_of sample_params)) by (by vm_compute).
  exact (conj H1 (conj H2 (conj H3 (conj H4 (conj H5 (conj H6 (conj H7 (conj H8
    (ghost_cells_mirror_the_interior sample_exp sample_params sample_blocks 1 5 7
       H1 H2 H3 H4 H5 H6 H7 H8))))))))).
Defined.

(** ** Which test is reported *)

Section Rejections.

Variable exp : float → float.
Variable backend : Type.
Variable pardiso_start : Z → Z → backend.
Variable flat_laplacian : backend → solve_call → backend * solve_result.

Abbreviation driver := (main exp backend pardiso_start flat_laplacian).

(** X18: with seven arguments and a directory name that fits in [dirname]
    the tests are made in the order [norder], [NrInterior], [NzInterior],
    [dr], [dz]; the first one that fires prints its message and ends the run
    with [exit(1)], the input unread. An [NzInterior] above 2048 fires the
    second test and is reported with the message and the value of
    [NrInterior]. *)
Theorem first_failing_test_is_reported e i :
  argc e = 7 →
  (String.length (argv_dirname e) < 256)%nat →
  let order_ok := argv_norder e = 2 ∨ argv_norder e = 4 in
  let Nr_ok := NRINTERIOR_MIN ≤ argv_NrInterior e ∧ argv_NzInterior e ≤ NRINTERIOR_MAX in
  let Nz_ok := NZINTERIOR_MIN ≤ argv_NzInterior e ≤ NZINTERIOR_MAX in
  let dr_ok := (argv_dr e <? DR_MIN)%float = false ∧ (DR_MAX <? argv_dr e)%float = false in
  let dz_ok := (argv_dz e <? DZ_MIN)%float = false ∧ (DZ_MAX <? argv_dz e)%float = false in
  (¬ order_ok → run (driver e) i = (Exit 1, i, [order_message e])) ∧
  (order_ok → ¬ Nr_ok → run (driver e) i = (Exit 1, i, [NrInterior_message e])) ∧
  (order_ok → Nr_ok → ¬ Nz_ok →
     run (driver e) i = (Exit 1, i, [NzInterior_message e])) ∧
  (order_ok → Nr_ok → Nz_ok → ¬ dr_ok →
     run (driver e) i = (Exit 1, i, [dr_message e])) ∧
  (order_ok → Nr_ok → Nz_ok → dr_ok → ¬ dz_ok →
     run (driver e) i = (Exit 1, i, [dz_message e])) ∧
  (order_ok → NRINTERIOR_MIN ≤ argv_NrInterior e → NZINTERIOR_MAX < argv_NzInterior e →
     run (driver e) i = (Exit 1, i, [NrInterior_message e])).
Proof.
  intros Hargc Hfit. cbv zeta.
  rewrite main_unfold. unfold get_arguments, strcpy. rewrite Hargc.
  change (negb (7 =? 7)) with false. cbv iota.
  rewrite decide_True by done.
  set (c1 := negb (argv_norder e =? 2) && negb (argv_norder e =? 4)).
  set (c2 := (argv_NrInterior e <? NRINTERIOR_MIN) || (argv_NzInterior e >? NRINTERIOR_MAX)).
  set (c3 := (argv_NzInterior e <? NZINTERIOR_MIN) || (argv_NzInterior e >? NZINTERIOR_MAX)).
  set (c4 := (argv_dr e <? DR_MIN)%float || (DR_MAX <? argv_dr e)%float).
  set (c5 := (argv_dz e <? DZ_MIN)%float || (DZ_MAX <? argv_dz e)%float).
  assert (H1 : argv_norder e = 2 ∨ argv_norder e = 4 ↔ c1 = false).
  { unfold c1. rewrite andb_false_iff, !negb_false_iff, !Z.eqb_eq. tauto. }
  assert (H2 : NRINTERIOR_MIN ≤ argv_NrInterior e ∧ argv_NzInterior e ≤ NRINTERIOR_MAX
               ↔ c2 = false).
  { unfold c2. rewrite orb_false_iff, Z.gtb_ltb, !Z.ltb_ge. tauto. }
  assert (H3 : NZINTERIOR_MIN ≤ argv_NzInterior e ≤ NZINTERIOR_MAX ↔ c3 = false).
  { unfold c3. rewrite orb_false_iff, Z.gtb_ltb, !Z.ltb_ge. tauto. }
  assert (H4 : (argv_dr e <? DR_MIN)%float = false ∧ (DR_MAX <? argv_dr e)%float = false
               ↔ c4 = false).
  { unfold c4. by rewrite orb_false_iff. }
  assert (H5 : (argv_dz e <? DZ_MIN)%float = false ∧ (DZ_MAX <? argv_dz e)%float = false
               ↔ c5 = false).
  { unfold c5. by rewrite orb_false_iff. }
  assert (H2' : NRINTERIOR_MIN ≤ argv_NrInterior e →
                NZINTERIOR_MAX < argv_NzInterior e → c2 = true).
  { intros _ Hz. unfold c2. apply orb_true_iff. right.
    rewrite Z.gtb_ltb. by apply Z.ltb_lt. }
  rewrite H1, H2, H3, H4, H5.
  clearbody c1 c2 c3 c4 c5. clear H1 H2 H3 H4 H5.
  destruct c1, c2, c3, c4, c5;
    repeat split; intros; first [done | reflexivity | by specialize (H2' ltac:(done) ltac:(done))].
Qed.

End Rejections.

Lemma first_failing_test_is_reported_witness :
  argc sample_tall_env = 7 ∧
  (String.length (argv_dirname sample_tall_env) < 256)%nat ∧
  (argv_norder sample_tall_env = 2 ∨ argv_norder sample_tall_env = 4) ∧
  NRINTERIOR_MIN ≤ argv_NrInterior sample_tall_env ∧
  NZINTERIOR_MAX < argv_NzInterior sample_tall_env ∧
  run (main sample_exp unit (λ _ _, tt) sample_solver sample_tall_env) answer_yes
    = (Exit 1, answer_yes, [NrInterior_message sample_tall_env]).
Proof.
  assert (H1 : argc sample_tall_env = 7) by reflexivity.
  assert (H2 : argv_norder sample_tall_env = 2 ∨ argv_norder sample_tall_env = 4)
    by (by left).
  assert (H3 : NRINTERIOR_MIN ≤ argv_NrInterior sample_tall_env) by (by vm_compute).
  assert (H4 : NZINTERIOR_MAX < argv_NzInterior sample_tall_env) by (by vm_compute).
  assert (Hn : (String.length (argv_dirname sample_tall_env) < 256)%nat) by (cbn; lia).
  pose proof (first_failing_test_is_reported sample_exp unit (λ _ _, tt) sample_solver
                sample_tall_env answer_yes H1 Hn) as (_ & _ & _ & _ & _ & T).
  exact (conj H1 (conj Hn (conj H2 (conj H3 (conj H4 (T H2 H3 H4)))))).
Defined.
